(** * FormWatcher: a shallow embedding of [src/index.js]

    The class [FormWatcher] keeps three insertion-ordered maps from field
    identifiers to field snapshots ([originalState], [currentState],
    [removedFields]), updates them from DOM events and mutation records, and
    diffs them, either directly ([checkForChanges], [getChanges]) or after a
    debounce delay.

    Conventions of the embedding:
    - a JS [Map] is an association list in insertion order ([JSMap]); the
      order is observable through the lists built by [getChanges];
    - a DOM element is a record of the properties the class reads, as the
      host presents them when it notifies the class; the one attribute the
      class writes, [data-form-watcher-id], lives in a store keyed by element
      identity ([dataset] of [Host]);
    - every object literal that the class creates for a field snapshot gets
      a fresh address ([addr]), so that "copy" and "same object" differ;
    - [setTimeout]/[clearTimeout], [crypto.randomUUID], [console.error],
      listener registration and the user callback are host facilities; they
      are modelled by the [Host] record (a logical clock in milliseconds, a
      timer table, a UUID supply, a console and a log of callback calls). *)

From Stdlib Require Import String Ascii List Bool Arith Lia.
From stdpp Require Import base option list gmap strings.
Import ListNotations.
Local Open Scope string_scope.
Local Open Scope list_scope.
Local Open Scope nat_scope.
Set Warnings "-register-all,-clear-no-such-hyp".

(** ** JavaScript values held by a snapshot *)

(** [value] of a snapshot: a string, or an array of strings for a
    multi-select. *)
Inductive Value :=
| Str (s : string)
| Arr (items : list string).

(** [a || b] on strings: the empty string is falsy. *)
Definition strOr (a b : string) : string :=
  if String.eqb a "" then b else a.

(** [a || b] where [a] may be [undefined]. *)
Definition undefOr (a : option string) (b : string) : string :=
  match a with
  | Some s => strOr s b
  | None => b
  end.

(** [value1.every((val, index) => val === value2[index])]; [value2[index]]
    is [undefined] out of range, which no string equals. *)
Fixpoint every_at (value2 : list string) (index : nat) (value1 : list string) : bool :=
  match value1 with
  | [] => true
  | val :: rest =>
      match nth_error value2 index with
      | Some other => String.eqb val other && every_at value2 (S index) rest
      | None => false
      end
  end.

(** [valuesAreEqual(value1, value2)], index.js 69-75. *)
Definition valuesAreEqual (value1 value2 : Value) : bool :=
  match value1, value2 with
  | Arr a1, Arr a2 =>
      if negb (Nat.eqb (length a1) (length a2)) then false
      else every_at a2 0 a1
  | Str s1, Str s2 => String.eqb s1 s2
  | Arr _, Str _ => false
  | Str _, Arr _ => false
  end.

(** [c1 === c2] on a [checked] property: a boolean or [undefined]. *)
Definition checkedIdentical (c1 c2 : option bool) : bool :=
  match c1, c2 with
  | None, None => true
  | Some b1, Some b2 => Bool.eqb b1 b2
  | _, _ => false
  end.

(** ** Field snapshots *)

(** The object [{ field, value, checked }] built by [formatFieldState];
    [addr] is the identity of the object, [field] the identity of the DOM
    element it refers to. *)
Record FieldState := {
  addr : nat;
  field : nat;
  value : Value;
  checked : option bool
}.

(** The test both diff entry points apply to a stored and a current snapshot:
    [!this.valuesAreEqual(a.value, b.value) || a.checked !== b.checked]. *)
Definition snapshotDiffers (a b : FieldState) : bool :=
  negb (valuesAreEqual (value a) (value b)) || negb (checkedIdentical (checked a) (checked b)).

Definition snapshotEqual (a b : FieldState) : bool := negb (snapshotDiffers a b).

(** [{ ...data }]: a new object with the same properties. *)
Definition spread (fresh : nat) (data : FieldState) : FieldState :=
  {| addr := fresh; field := field data; value := value data; checked := checked data |}.

(** ** JavaScript [Map] with string keys *)

Module JSMap.
Section Ops.
Context {V : Type}.

Definition t := list (string * V).

Definition empty : t := [].

Fixpoint get (m : t) (k : string) : option V :=
  match m with
  | [] => None
  | (k', v) :: rest => if String.eqb k' k then Some v else get rest k
  end.

Definition has (m : t) (k : string) : bool :=
  match get m k with Some _ => true | None => false end.

(** [set] keeps the position of a key that is present and appends a new
    one. *)
Fixpoint set (m : t) (k : string) (v : V) : t :=
  match m with
  | [] => [(k, v)]
  | (k', v') :: rest =>
      if String.eqb k' k then (k', v) :: rest else (k', v') :: set rest k v
  end.

Fixpoint delete (m : t) (k : string) : t :=
  match m with
  | [] => []
  | (k', v') :: rest =>
      if String.eqb k' k then rest else (k', v') :: delete rest k
  end.

Definition keys (m : t) : list string := map fst m.

(** A list is a [Map] when no key occurs twice. *)
Definition wf (m : t) : Prop := NoDup (keys m).

End Ops.
Arguments t : clear implicits.
End JSMap.

(** ** The DOM as the class sees it *)

(** The properties of an element that the class reads. [el_node] is the
    identity of the element; [el_matches] is its [matches(selector)]
    method, taken on selectors the host can parse (on others the host
    throws). *)
Record Element := {
  el_node : nat;
  el_tagName : string;
  el_type : string;
  el_id : string;
  el_name : string;
  el_value : string;
  el_checked : bool;
  el_multiple : bool;
  el_selectedOptions : list string;
  el_matches : string -> bool
}.

(** A node with its subtree; [OtherNode] is any node whose [nodeType] is not
    [Node.ELEMENT_NODE]. *)
Inductive Node :=
| ElementNode (e : Element) (children : list Node)
| OtherNode.

Record Event := {
  ev_type : string;
  target : Element
}.

Record MutationRecord := {
  addedNodes : list Node;
  removedNodes : list Node
}.

(** [String.prototype.toLowerCase] on the ASCII letters of a tag name. *)
Definition lowerAscii (c : ascii) : ascii :=
  let n := nat_of_ascii c in
  if Nat.leb 65 n && Nat.leb n 90 then ascii_of_nat (n + 32) else c.

Fixpoint toLowerCase (s : string) : string :=
  match s with
  | EmptyString => EmptyString
  | String c rest => String (lowerAscii c) (toLowerCase rest)
  end.

(** [['input', 'select', 'textarea'].includes(x)] *)
Definition includes (l : list string) (x : string) : bool :=
  existsb (fun y => String.eqb y x) l.

(** [el.matches('input, select, textarea')]: a type selector list, which
    matches on the tag name whatever its case. *)
Definition isFieldElement (e : Element) : bool :=
  includes ["input"; "select"; "textarea"] (toLowerCase (el_tagName e)).

(** The elements of a subtree in document order, root first. *)
Fixpoint subtree (n : Node) : list Element :=
  match n with
  | ElementNode e children => e :: flat_map subtree children
  | OtherNode => []
  end.

(** [node.querySelectorAll(sel)]: the descendants (the node itself excluded)
    that satisfy [sel], in document order. *)
Definition querySelectorAll (n : Node) (sel : Element -> bool) : list Element :=
  match n with
  | ElementNode _ children => filter (fun e => Is_true (sel e)) (flat_map subtree children)
  | OtherNode => []
  end.

(** The selector [input[type="radio"][name="<name>"]], for a name that
    needs no escaping inside the quotes. *)
Definition isRadioNamed (name : string) (e : Element) : bool :=
  String.eqb (toLowerCase (el_tagName e)) "input"
  && String.eqb (el_type e) "radio"
  && String.eqb (el_name e) name.

(** ** The result of [getChanges] *)

(** [{ id, ...data }] *)
Record Change := {
  ch_id : string;
  ch_field : nat;
  ch_value : Value;
  ch_checked : option bool
}.

(** [{ id, ...data, previousValue, previousChecked }] *)
Record ReAdded := {
  re_id : string;
  re_field : nat;
  re_value : Value;
  re_checked : option bool;
  previousValue : Value;
  previousChecked : option bool
}.

(** [{ id, original, current }] *)
Record Modified := {
  mod_id : string;
  original : FieldState;
  current : FieldState
}.

Record Changes := {
  added : list Change;
  removed : list Change;
  modified : list Modified;
  reAdded : list ReAdded
}.

(** ** Host and instance state *)

(** One call of the user's [onFormChanged(hasChanges, changes, event)]. *)
Record Call := {
  call_hasChanges : bool;
  call_changes : Changes;
  call_event : option Event
}.

(** How a call of the host ends: it returns a value, or it throws. *)
Inductive Completion (A : Type) :=
| Returned (a : A)
| Thrown (error : string).

Arguments Returned {A} a.
Arguments Thrown {A} error.

(** The host environment. [timers] holds the pending timeouts as pairs of
    (timer id, due time); every timeout of this program runs
    [checkForChanges]. [listeners] lists the event types registered on the
    form, [observing] tells whether a [MutationObserver] watches it.
    [document] is [document.querySelector]: on a selector it parses it
    returns the first element that matches, or [null]; on a string that is
    not a selector (the empty string, for one) it throws a [SyntaxError]. *)
Record Host := {
  dataset : gmap nat string;
  uuidSeq : nat -> string;
  uuidNext : nat;
  nextAddr : nat;
  clock : nat;
  timers : list (nat * nat);
  nextTimer : nat;
  console : list string;
  calls : list Call;
  listeners : list string;
  observing : bool;
  document : string -> Completion (option Node)
}.

(** The properties of an initialised instance. [timeoutId] is the variable
    captured by the closure that [debounce] returns; [onFormChanged] names
    the user's function. *)
Record FormWatcher := {
  DEBOUNCE_DELAY : nat;
  excludeSelectors : list string;
  onFormChanged : option nat;
  originalState : JSMap.t FieldState;
  currentState : JSMap.t FieldState;
  removedFields : JSMap.t FieldState;
  lastEvent : option Event;
  timeoutId : option nat
}.

Record World := {
  this : FormWatcher;
  host : Host
}.

(** State-passing computations over an instance and its host. *)
Definition M (A : Type) : Type := World -> A * World.

Definition ret {A} (a : A) : M A := fun w => (a, w).

Definition bind {A B} (m : M A) (k : A -> M B) : M B :=
  fun w => let (a, w') := m w in k a w'.

Notation "'let*' x := m 'in' k" := (bind m (fun x => k))
  (at level 10, x name, m at level 100, k at level 200).
Notation "m >> k" := (bind m (fun _ => k))
  (at level 100, k at level 200, right associativity).

Definition gets {A} (f : World -> A) : M A := fun w => (f w, w).

Definition onThis (f : FormWatcher -> FormWatcher) : M unit :=
  fun w => (tt, {| this := f (this w); host := host w |}).

Definition onHost (f : Host -> Host) : M unit :=
  fun w => (tt, {| this := this w; host := f (host w) |}).

(** [l.forEach(body)] *)
Fixpoint forEach {A} (l : list A) (body : A -> M unit) : M unit :=
  match l with
  | [] => ret tt
  | x :: rest => body x >> forEach rest body
  end.

(** ** Host facilities *)

Definition setDataset (d : gmap nat string) (h : Host) : Host :=
  {| dataset := d; uuidSeq := uuidSeq h; uuidNext := uuidNext h; nextAddr := nextAddr h;
     clock := clock h; timers := timers h; nextTimer := nextTimer h;
     console := console h; calls := calls h; listeners := listeners h;
     observing := observing h; document := document h |}.

Definition setUuidNext (n : nat) (h : Host) : Host :=
  {| dataset := dataset h; uuidSeq := uuidSeq h; uuidNext := n; nextAddr := nextAddr h;
     clock := clock h; timers := timers h; nextTimer := nextTimer h;
     console := console h; calls := calls h; listeners := listeners h;
     observing := observing h; document := document h |}.

Definition setNextAddr (n : nat) (h : Host) : Host :=
  {| dataset := dataset h; uuidSeq := uuidSeq h; uuidNext := uuidNext h; nextAddr := n;
     clock := clock h; timers := timers h; nextTimer := nextTimer h;
     console := console h; calls := calls h; listeners := listeners h;
     observing := observing h; document := document h |}.

Definition setClock (now : nat) (h : Host) : Host :=
  {| dataset := dataset h; uuidSeq := uuidSeq h; uuidNext := uuidNext h;
     nextAddr := nextAddr h; clock := now; timers := timers h; nextTimer := nextTimer h;
     console := console h; calls := calls h; listeners := listeners h;
     observing := observing h; document := document h |}.

Definition setTimers (table : list (nat * nat)) (next : nat) (h : Host) : Host :=
  {| dataset := dataset h; uuidSeq := uuidSeq h; uuidNext := uuidNext h;
     nextAddr := nextAddr h; clock := clock h; timers := table; nextTimer := next;
     console := console h; calls := calls h; listeners := listeners h;
     observing := observing h; document := document h |}.

Definition setConsole (lines : list string) (h : Host) : Host :=
  {| dataset := dataset h; uuidSeq := uuidSeq h; uuidNext := uuidNext h;
     nextAddr := nextAddr h; clock := clock h; timers := timers h; nextTimer := nextTimer h;
     console := lines; calls := calls h; listeners := listeners h;
     observing := observing h; document := document h |}.

Definition setCalls (log : list Call) (h : Host) : Host :=
  {| dataset := dataset h; uuidSeq := uuidSeq h; uuidNext := uuidNext h;
     nextAddr := nextAddr h; clock := clock h; timers := timers h; nextTimer := nextTimer h;
     console := console h; calls := log; listeners := listeners h;
     observing := observing h; document := document h |}.

Definition setListeners (types : list string) (observed : bool) (h : Host) : Host :=
  {| dataset := dataset h; uuidSeq := uuidSeq h; uuidNext := uuidNext h;
     nextAddr := nextAddr h; clock := clock h; timers := timers h; nextTimer := nextTimer h;
     console := console h; calls := calls h; listeners := types;
     observing := observed; document := document h |}.

(** [setTimeout(f, delay)]: a new timer due [delay] milliseconds from now;
    returns its id. *)
Definition setTimeout (delay : nat) : M nat :=
  fun w =>
    let h := host w in
    (nextTimer h,
     {| this := this w;
        host := setTimers (timers h ++ [(nextTimer h, clock h + delay)]) (S (nextTimer h)) h |}).

(** [clearTimeout(id)]: drops the timer if it is pending; [undefined] and
    the id of a timer that already ran are ignored. *)
Definition clearTimeout (id : option nat) : M unit :=
  fun w =>
    let h := host w in
    match id with
    | None => (tt, w)
    | Some i =>
        (tt,
         {| this := this w;
            host := setTimers (filter (fun tm => fst tm <> i) (timers h)) (nextTimer h) h |})
    end.

(** [crypto.randomUUID()]: the next string of the host's supply. *)
Definition randomUUID : M string :=
  fun w =>
    let h := host w in
    (uuidSeq h (uuidNext h), {| this := this w; host := setUuidNext (S (uuidNext h)) h |}).

(** [field.dataset.formWatcherId = id] *)
Definition setFormWatcherId (f : Element) (id : string) : M unit :=
  onHost (fun h => setDataset (<[el_node f := id]> (dataset h)) h).

(** The address of a new object. *)
Definition newObject : M nat :=
  fun w =>
    let h := host w in
    (nextAddr h, {| this := this w; host := setNextAddr (S (nextAddr h)) h |}).

(** The user's callback is called; the model records the arguments. *)
Definition callUser (c : Call) : M unit :=
  onHost (fun h => setCalls (calls h ++ [c]) h).

(** ** Setters of the instance properties *)

Definition setCurrentState (m : JSMap.t FieldState) (t : FormWatcher) : FormWatcher :=
  {| DEBOUNCE_DELAY := DEBOUNCE_DELAY t; excludeSelectors := excludeSelectors t;
     onFormChanged := onFormChanged t; originalState := originalState t;
     currentState := m; removedFields := removedFields t;
     lastEvent := lastEvent t; timeoutId := timeoutId t |}.

Definition setOriginalState (m : JSMap.t FieldState) (t : FormWatcher) : FormWatcher :=
  {| DEBOUNCE_DELAY := DEBOUNCE_DELAY t; excludeSelectors := excludeSelectors t;
     onFormChanged := onFormChanged t; originalState := m;
     currentState := currentState t; removedFields := removedFields t;
     lastEvent := lastEvent t; timeoutId := timeoutId t |}.

Definition setRemovedFields (m : JSMap.t FieldState) (t : FormWatcher) : FormWatcher :=
  {| DEBOUNCE_DELAY := DEBOUNCE_DELAY t; excludeSelectors := excludeSelectors t;
     onFormChanged := onFormChanged t; originalState := originalState t;
     currentState := currentState t; removedFields := m;
     lastEvent := lastEvent t; timeoutId := timeoutId t |}.

Definition setLastEvent (e : option Event) (t : FormWatcher) : FormWatcher :=
  {| DEBOUNCE_DELAY := DEBOUNCE_DELAY t; excludeSelectors := excludeSelectors t;
     onFormChanged := onFormChanged t; originalState := originalState t;
     currentState := currentState t; removedFields := removedFields t;
     lastEvent := e; timeoutId := timeoutId t |}.

Definition setTimeoutId (i : option nat) (t : FormWatcher) : FormWatcher :=
  {| DEBOUNCE_DELAY := DEBOUNCE_DELAY t; excludeSelectors := excludeSelectors t;
     onFormChanged := onFormChanged t; originalState := originalState t;
     currentState := currentState t; removedFields := removedFields t;
     lastEvent := lastEvent t; timeoutId := i |}.

(** ** The methods of the class *)

(** The closure returned by [debounce(func, delay)], index.js 55-61, for
    [func = () => this.checkForChanges()] and [delay = DEBOUNCE_DELAY]:
    [clearTimeout(timeoutId); timeoutId = setTimeout(..., delay)]. *)
Definition debouncedCheckForChanges : M unit :=
  let* pending := gets (fun w => timeoutId (this w)) in
  clearTimeout pending >>
  let* delay := gets (fun w => DEBOUNCE_DELAY (this w)) in
  let* id := setTimeout delay in
  onThis (setTimeoutId (Some id)).

(** [getFieldId(field)], index.js 64-66:
    [field.dataset.formWatcherId || field.id || '']. *)
Definition getFieldId (h : Host) (f : Element) : string :=
  strOr (undefOr (dataset h !! el_node f) (el_id f)) "".

(** [selector.replace(/^#/, '')] *)
Definition stripHash (selector : string) : string :=
  match selector with
  | String "#" rest => rest
  | _ => selector
  end.

(** [isExcluded(field)], index.js 90-92. *)
Definition isExcluded (t : FormWatcher) (h : Host) (f : Element) : bool :=
  existsb
    (fun selector =>
       el_matches f selector || String.eqb (getFieldId h f) (stripHash selector))
    (excludeSelectors t).

Definition isExcludedM (f : Element) : M bool :=
  gets (fun w => isExcluded (this w) (host w) f).

(** [getOrSetFieldID(field)], index.js 94-104. *)
Definition getOrSetFieldID (f : Element) : M string :=
  let* id := gets (fun w => getFieldId (host w) f) in
  if String.eqb id "" then
    let* uuid := randomUUID in
    let id' :=
      if negb (String.eqb (el_name f) "") then el_name f +:+ "-" +:+ uuid
      else el_type f +:+ "-" +:+ uuid in
    setFormWatcherId f id' >>
    ret id'
  else ret id.

(** [formatFieldState(field)], index.js 106-119. *)
Definition formatFieldState (f : Element) : M FieldState :=
  let checked :=
    if String.eqb (el_type f) "checkbox" || String.eqb (el_type f) "radio"
    then Some (el_checked f) else None in
  let value :=
    if String.eqb (toLowerCase (el_tagName f)) "select" && el_multiple f
    then Arr (el_selectedOptions f)
    else Str (strOr (el_value f) "") in
  let* a := newObject in
  ret {| addr := a; field := el_node f; value := value; checked := checked |}.

(** [initializeState()], index.js 78-87; [form] is the subtree of
    [this.form] at that moment. *)
Definition initializeState (form : Node) : M unit :=
  forEach (querySelectorAll form isFieldElement) (fun f =>
    let* excluded := isExcludedM f in
    if excluded then ret tt
    else
      let* id := getOrSetFieldID f in
      let* s1 := formatFieldState f in
      onThis (fun t => setOriginalState (JSMap.set (originalState t) id s1) t) >>
      let* s2 := formatFieldState f in
      onThis (fun t => setCurrentState (JSMap.set (currentState t) id s2) t)).

(** [updateCurrentState(field)], index.js 148-152. *)
Definition updateCurrentState (f : Element) : M unit :=
  let* id := getOrSetFieldID f in
  let* s := formatFieldState f in
  onThis (fun t => setCurrentState (JSMap.set (currentState t) id s) t) >>
  debouncedCheckForChanges.

(** The ['change'] listener, index.js 124-135; [form] is the subtree of
    [this.form] when the event is dispatched. *)
Definition onChange (form : Node) (e : Event) : M unit :=
  let* excluded := isExcludedM (target e) in
  if includes ["input"; "select"; "textarea"] (toLowerCase (el_tagName (target e)))
     && negb excluded
  then
    onThis (setLastEvent (Some e)) >>
    if String.eqb (el_type (target e)) "radio" && negb (String.eqb (el_name (target e)) "")
    then forEach (querySelectorAll form (isRadioNamed (el_name (target e)))) updateCurrentState
    else updateCurrentState (target e)
  else ret tt.

(** The ['input'] listener, index.js 138-144. *)
Definition onInput (e : Event) : M unit :=
  let* excluded := isExcludedM (target e) in
  if negb excluded
     && (String.eqb (toLowerCase (el_tagName (target e))) "textarea"
         || (String.eqb (toLowerCase (el_tagName (target e))) "input"
             && String.eqb (el_type (target e)) "text"))
  then
    onThis (setLastEvent (Some e)) >>
    updateCurrentState (target e)
  else ret tt.

(** [node.matches('input, select, textarea') ? [node] :
    node.querySelectorAll('input, select, textarea')] for an element node,
    index.js 161 and 174. *)
Definition fieldsOf (n : Node) : list Element :=
  match n with
  | ElementNode e _ => if isFieldElement e then [e] else querySelectorAll n isFieldElement
  | OtherNode => []
  end.

(** The body of [fields.forEach] for an added node, index.js 163-167. *)
Definition onAddedField (f : Element) : M unit :=
  let* excluded := isExcludedM f in
  if excluded then ret tt else updateCurrentState f.

(** The body of [fields.forEach] for a removed node, index.js 175-184. *)
Definition onRemovedField (f : Element) : M unit :=
  let* excluded := isExcludedM f in
  if excluded then ret tt
  else
    let* id := gets (fun w => getFieldId (host w) f) in
    let* live := gets (fun w => currentState (this w)) in
    if negb (String.eqb id "") && JSMap.has live id then
      match JSMap.get live id with
      | Some data =>
          onThis (fun t => setRemovedFields (JSMap.set (removedFields t) id data) t) >>
          onThis (fun t => setCurrentState (JSMap.delete (currentState t) id) t) >>
          debouncedCheckForChanges
      | None => ret tt (* not reached: [has(id)] holds *)
      end
    else ret tt.

(** The [MutationObserver] callback, index.js 156-188. *)
Definition onMutations (mutations : list MutationRecord) : M unit :=
  forEach mutations (fun mutation =>
    forEach (addedNodes mutation) (fun n => forEach (fieldsOf n) onAddedField) >>
    forEach (removedNodes mutation) (fun n => forEach (fieldsOf n) onRemovedField)).

(** The first loop of [checkForChanges], index.js 201-223: [true] as soon as
    an entry of [currentState] is new, or differs from its original or
    removed snapshot ([hasChanges = true; break]). *)
Fixpoint scanCurrent (t : FormWatcher) (entries : list (string * FieldState)) : bool :=
  match entries with
  | [] => false
  | (id, data) :: rest =>
      match JSMap.get (originalState t) id with
      | None =>
          match JSMap.get (removedFields t) id with
          | Some removedData =>
              if snapshotDiffers removedData data then true else scanCurrent t rest
          | None => true
          end
      | Some originalData =>
          if snapshotDiffers originalData data then true else scanCurrent t rest
      end
  end.

(** The second loop, index.js 227-232. *)
Fixpoint scanOriginal (t : FormWatcher) (ids : list string) : bool :=
  match ids with
  | [] => false
  | id :: rest =>
      if negb (JSMap.has (currentState t) id) then true else scanOriginal t rest
  end.

(** The value of [hasChanges] when the loops are over. *)
Definition hasChanges (t : FormWatcher) : bool :=
  if scanCurrent t (currentState t) then true
  else scanOriginal t (JSMap.keys (originalState t)).

(** The first loop of [getChanges], index.js 262-284; [push] appends. *)
Fixpoint classify (t : FormWatcher) (entries : list (string * FieldState))
    (changes : Changes) : Changes :=
  match entries with
  | [] => changes
  | (id, data) :: rest =>
      classify t rest
        match JSMap.get (originalState t) id with
        | None =>
            let change :=
              {| ch_id := id; ch_field := field data; ch_value := value data;
                 ch_checked := checked data |} in
            match JSMap.get (removedFields t) id with
            | Some removedData =>
                {| added := added changes; removed := removed changes;
                   modified := modified changes;
                   reAdded := reAdded changes ++
                     [{| re_id := ch_id change; re_field := ch_field change;
                         re_value := ch_value change; re_checked := ch_checked change;
                         previousValue := value removedData;
                         previousChecked := checked removedData |}] |}
            | None =>
                {| added := added changes ++ [change]; removed := removed changes;
                   modified := modified changes; reAdded := reAdded changes |}
            end
        | Some originalData =>
            if snapshotDiffers originalData data then
              {| added := added changes; removed := removed changes;
                 modified := modified changes ++
                   [{| mod_id := id; original := originalData; current := data |}];
                 reAdded := reAdded changes |}
            else changes
        end
  end.

(** The second loop of [getChanges], index.js 287-291. *)
Fixpoint collectRemoved (t : FormWatcher) (entries : list (string * FieldState))
    (changes : Changes) : Changes :=
  match entries with
  | [] => changes
  | (id, data) :: rest =>
      collectRemoved t rest
        (if negb (JSMap.has (currentState t) id) then
           {| added := added changes;
              removed := removed changes ++
                [{| ch_id := id; ch_field := field data; ch_value := value data;
                    ch_checked := checked data |}];
              modified := modified changes; reAdded := reAdded changes |}
         else changes)
  end.

(** [getChanges()], index.js 253-294. *)
Definition getChanges (t : FormWatcher) : Changes :=
  collectRemoved t (originalState t)
    (classify t (currentState t)
       {| added := []; removed := []; modified := []; reAdded := [] |}).

(** [checkForChanges()], index.js 197-241. *)
Definition checkForChanges : M bool :=
  let* t := gets this in
  let result := hasChanges t in
  match onFormChanged t with
  | Some _ =>
      callUser {| call_hasChanges := result; call_changes := getChanges t;
                  call_event := lastEvent t |}
  | None => ret tt
  end >>
  ret result.

(** The callback of [this.originalState.forEach], index.js 246-248:
    [this.currentState.set(id, { ...data })]. *)
Definition copyEntry (entry : string * FieldState) : M unit :=
  let '(id, data) := entry in
  let* a := newObject in
  onThis (fun t => setCurrentState (JSMap.set (currentState t) id (spread a data)) t).

(** [resetState()], index.js 244-250. *)
Definition resetState : M unit :=
  onThis (setCurrentState JSMap.empty) >>
  let* entries := gets (fun w => originalState (this w)) in
  forEach entries copyEntry >>
  debouncedCheckForChanges.

(** ** Construction *)

(** The first argument of the constructor: a selector string, or an element
    reference ([None] for [null] or [undefined]). *)
Inductive Target :=
| Selector (s : string)
| ElementRef (n : option Node).

(** [options.onFormChanged]: the class keeps it only when
    [typeof options.onFormChanged === 'function']. *)
Inductive OptionValue :=
| NotAFunction
| Function (name : nat).

Record Options := {
  debounceDelay : option nat;
  excludeSelectorsOpt : option (list string);
  onFormChangedOpt : OptionValue
}.

(** An instance after its constructor has run: with every property set, or,
    when the constructor returned early, with [form] alone (and that is
    [null]). *)
Inductive Instance :=
| Inert
| Ready (t : FormWatcher).

Record System := {
  inst : Instance;
  env : Host
}.

(** [console.error(msg)] *)
Definition consoleError (msg : string) (h : Host) : Host :=
  setConsole (console h ++ [msg]) h.

(** [setupEventListeners()], index.js 122-145: the two [addEventListener]
    calls. *)
Definition setupEventListeners : M unit :=
  onHost (fun h => setListeners (listeners h ++ ["change"; "input"]) (observing h) h).

(** [setupMutationObserver()], index.js 155-194: [observer.observe]. *)
Definition setupMutationObserver : M unit :=
  onHost (fun h => setListeners (listeners h) true h).

(** [typeof formElementOrSelector === 'string' ?
     document.querySelector(formElementOrSelector) : formElementOrSelector],
    index.js 22: the value stored in [this.form], unless the query throws. *)
Definition resolve (formElementOrSelector : Target) (h : Host) : Completion (option Node) :=
  match formElementOrSelector with
  | Selector s => document h s
  | ElementRef n => Returned n
  end.

(** The constructor from the test of [this.form] on, index.js 24-52, with
    [form] the value of [this.form]. *)
Definition constructWith (form : option Node) (options : Options) (h : Host) : System :=
  match form with
  | None => {| inst := Inert; env := consoleError "Form not found" h |}
  | Some formNode =>
      let t :=
        {| DEBOUNCE_DELAY := match debounceDelay options with Some d => d | None => 300 end;
           excludeSelectors :=
             match excludeSelectorsOpt options with Some l => l | None => [] end;
           onFormChanged :=
             match onFormChangedOpt options with Function f => Some f | NotAFunction => None end;
           originalState := JSMap.empty;
           currentState := JSMap.empty;
           removedFields := JSMap.empty;
           lastEvent := None;
           timeoutId := None |} in
      let w :=
        snd ((initializeState formNode >> setupEventListeners >> setupMutationObserver)
               {| this := t; host := h |}) in
      {| inst := Ready (this w); env := host w |}
  end.

(** [new FormWatcher(formElementOrSelector, options)], index.js 20-52. An
    exception of [document.querySelector] leaves the constructor from its
    first statement: nothing is logged and the caller gets no instance. *)
Definition construct (formElementOrSelector : Target) (options : Options) (h : Host) :
    Completion System :=
  match resolve formElementOrSelector h with
  | Thrown error => Thrown error
  | Returned form => Returned (constructWith form options h)
  end.

(** ** The event loop *)

(** The function of each timer of [due] runs: [checkForChanges], whose
    results are collected. *)
Fixpoint runEach (due : list (nat * nat)) : M (list bool) :=
  match due with
  | [] => ret []
  | _ :: rest =>
      let* r := checkForChanges in
      let* rs := runEach rest in
      ret (r :: rs)
  end.

(** The timers that are due leave the table and run, in the order they were
    set. *)
Definition runTimers : M (list bool) :=
  let* now := gets (fun w => clock (host w)) in
  let* table := gets (fun w => timers (host w)) in
  onHost (fun h => setTimers (filter (fun tm => ~ snd tm <= now) table) (nextTimer h) h) >>
  runEach (filter (fun tm => snd tm <= now) table).

(** [ms] milliseconds pass. *)
Definition elapse (ms : nat) : M (list bool) :=
  onHost (fun h => setClock (clock h + ms) h) >>
  runTimers.

(** A script sets or removes the [data-form-watcher-id] attribute of an
    element. *)
Definition writeDataset (n : nat) (v : option string) (h : Host) : Host :=
  setDataset
    match v with
    | Some id => <[n := id]> (dataset h)
    | None => delete n (dataset h)
    end h.

(** What the environment does to an instance. *)
Inductive Input :=
| EvChange (form : Node) (e : Event)
| EvInput (e : Event)
| EvMutations (mutations : list MutationRecord)
| Elapse (ms : nat)
| CallCheckForChanges
| CallGetChanges
| CallResetState
| WriteDataset (n : nat) (v : option string).

(** What the environment sees. *)
Inductive Output :=
| TimerRan (result : bool)
| ReturnedBool (b : bool)
| ReturnedChanges (c : Changes)
| ReturnedVoid
| Threw (error : string).

(** A computation of the class run on a system whose instance is
    initialised. *)
Definition runReady {A} (m : M A) (t : FormWatcher) (h : Host) : A * System :=
  let (a, w) := m {| this := t; host := h |} in
  (a, {| inst := Ready (this w); env := host w |}).

(** A public method called on an instance. On an instance whose constructor
    returned early [this.currentState] is [undefined]: iterating it
    ([checkForChanges], [getChanges]) or reading its [clear] property
    ([resetState]) raises a [TypeError]. *)
Definition callCheckForChanges (s : System) : System * list Output :=
  match inst s with
  | Inert => (s, [Threw "TypeError"])
  | Ready t => let (b, s') := runReady checkForChanges t (env s) in (s', [ReturnedBool b])
  end.

Definition callGetChanges (s : System) : System * list Output :=
  match inst s with
  | Inert => (s, [Threw "TypeError"])
  | Ready t => (s, [ReturnedChanges (getChanges t)])
  end.

Definition callResetState (s : System) : System * list Output :=
  match inst s with
  | Inert => (s, [Threw "TypeError"])
  | Ready t => let (_, s') := runReady resetState t (env s) in (s', [ReturnedVoid])
  end.

(** An event of type [type] reaches the listener registered for it, if there
    is one. *)
Definition dispatch (type : string) (handler : M unit) (s : System) : System * list Output :=
  match inst s with
  | Ready t =>
      if includes (listeners (env s)) type
      then (snd (runReady handler t (env s)), [])
      else (s, [])
  | Inert => (s, [])
  end.

Definition step (i : Input) (s : System) : System * list Output :=
  match i with
  | EvChange form e => dispatch "change" (onChange form e) s
  | EvInput e => dispatch "input" (onInput e) s
  | EvMutations mutations =>
      match inst s with
      | Ready t =>
          if observing (env s)
          then (snd (runReady (onMutations mutations) t (env s)), [])
          else (s, [])
      | Inert => (s, [])
      end
  | Elapse ms =>
      match inst s with
      | Ready t =>
          let (rs, s') := runReady (elapse ms) t (env s) in (s', map TimerRan rs)
      | Inert => ({| inst := Inert; env := setClock (clock (env s) + ms) (env s) |}, [])
      end
  | CallCheckForChanges => callCheckForChanges s
  | CallGetChanges => callGetChanges s
  | CallResetState => callResetState s
  | WriteDataset n v => ({| inst := inst s; env := writeDataset n v (env s) |}, [])
  end.

Fixpoint run (inputs : list Input) (s : System) : System * list Output :=
  match inputs with
  | [] => (s, [])
  | i :: rest =>
      let (s1, out1) := step i s in
      let (s2, out2) := run rest s1 in
      (s2, out1 ++ out2)
  end.

(** A host in which nothing has happened yet. *)
Definition bootHost (ds : gmap nat string) (uuids : nat -> string)
    (doc : string -> Completion (option Node)) : Host :=
  {| dataset := ds; uuidSeq := uuids; uuidNext := 0; nextAddr := 0; clock := 0;
     timers := []; nextTimer := 0; console := []; calls := [];
     listeners := []; observing := false; document := doc |}.

(** The systems that exist: an instance that a constructor returned in a
    host that has just booted, after any inputs. *)
Inductive reachable : System -> Prop :=
| reach_construct ds uuids doc target options s :
    construct target options (bootHost ds uuids doc) = Returned s ->
    reachable s
| reach_step s i :
    reachable s -> reachable (fst (step i s)).

(** ** Sample documents *)

Definition noUuid : nat -> string := fun _ => "00000000-0000-4000-8000-000000000000".

(** A document in which no selector matches anything; the empty string is
    not a selector. *)
Definition noMatch : string -> Completion (option Node) :=
  fun s => if String.eqb s "" then Thrown "SyntaxError" else Returned None.

Definition textInput (n : nat) (id val : string) : Element :=
  {| el_node := n; el_tagName := "INPUT"; el_type := "text"; el_id := id; el_name := "";
     el_value := val; el_checked := false; el_multiple := false;
     el_selectedOptions := []; el_matches := fun _ => false |}.

Definition formElement : Element :=
  {| el_node := 0; el_tagName := "FORM"; el_type := ""; el_id := "f"; el_name := "";
     el_value := ""; el_checked := false; el_multiple := false;
     el_selectedOptions := []; el_matches := fun _ => false |}.

Definition formWith (fields : list Element) : Node :=
  ElementNode formElement (map (fun e => ElementNode e []) fields).

Definition withCallback : Options :=
  {| debounceDelay := None; excludeSelectorsOpt := None; onFormChangedOpt := Function 0 |}.

Definition noOptions : Options :=
  {| debounceDelay := None; excludeSelectorsOpt := None; onFormChangedOpt := NotAFunction |}.

(** A form with one text field, id "x", value "A", watched from boot. *)
Definition watchedX : System :=
  constructWith (Some (formWith [textInput 1 "x" "A"])) withCallback
    (bootHost ∅ noUuid noMatch).

Definition removal (e : Element) : Input :=
  EvMutations [{| addedNodes := []; removedNodes := [ElementNode e []] |}].

Definition insertion (e : Element) : Input :=
  EvMutations [{| addedNodes := [ElementNode e []]; removedNodes := [] |}].

(** An instance with empty maps; what [watcherOf] answers for an instance
    that has none. *)
Definition blankWatcher : FormWatcher :=
  {| DEBOUNCE_DELAY := 300; excludeSelectors := []; onFormChanged := None;
     originalState := JSMap.empty; currentState := JSMap.empty;
     removedFields := JSMap.empty; lastEvent := None; timeoutId := None |}.

Definition watcherOf (s : System) : FormWatcher :=
  match inst s with
  | Ready t => t
  | Inert => blankWatcher
  end.

(** The form of [watchedX] after a field "y" with value "v" was inserted,
    removed, and inserted again with the same value. *)
Definition readdedSame : System :=
  fst (run [insertion (textInput 2 "y" "v"); removal (textInput 2 "y" "v");
            insertion (textInput 2 "y" "v")] watchedX).

(** The scenario of a field that leaves and comes back: the field "x" of
    [watchedX] is removed from the form, then an element with the same id is
    inserted, with value "B" or with value "A". *)
Definition removedX : System := fst (step (removal (textInput 1 "x" "A")) watchedX).

Definition reinsertedB : System := fst (step (insertion (textInput 2 "x" "B")) removedX).

Definition reinsertedA : System := fst (step (insertion (textInput 2 "x" "A")) removedX).

(** The user types "B" in the field "x". *)
Definition typesB : Event := {| ev_type := "input"; target := textInput 1 "x" "B" |}.

Definition typedB : System := fst (step (EvInput typesB) watchedX).

(** ... and [resetState()] is called. *)
Definition typedBThenReset : System := fst (step CallResetState typedB).

(** The user types "B", the debounced diff runs, a field "y" is inserted in
    the form, and the debounced diff runs again. *)
Definition typedThenInserted : System :=
  fst (run [EvInput typesB; Elapse 300; insertion (textInput 2 "y" "v"); Elapse 300] watchedX).

(** An instance constructed on a selector that matches nothing. *)
Definition notFound : System :=
  constructWith None noOptions (bootHost ∅ noUuid noMatch).

(** ** Shapes of the records of a diff *)

(** [{ id, ...data }] *)
Definition asChange (id : string) (data : FieldState) : Change :=
  {| ch_id := id; ch_field := field data; ch_value := value data; ch_checked := checked data |}.

(** [{ id, ...data, previousValue: removedData.value,
       previousChecked: removedData.checked }] *)
Definition asReAdded (id : string) (data removedData : FieldState) : ReAdded :=
  {| re_id := id; re_field := field data; re_value := value data; re_checked := checked data;
     previousValue := value removedData; previousChecked := checked removedData |}.

(** [{ id, original: originalData, current: data }] *)
Definition asModified (id : string) (originalData data : FieldState) : Modified :=
  {| mod_id := id; original := originalData; current := data |}.

(** ** Invariants of the event handlers *)

(** [m] keeps [P]. *)
Definition preserves {A} (P : World → Prop) (m : M A) : Prop :=
  ∀ w, P w → P (snd (m w)).

(** [P] is kept by each elementary effect of the class: a write to one of
    the maps or to [lastEvent], the creation of an object, a UUID draw, a
    write to the data attribute, a call of the user's function, a call of
    the debounced function, and the registration of listeners and observer. *)
Record Closed (P : World → Prop) : Prop := {
  closed_current_set id data :
    preserves P (onThis (fun t => setCurrentState (JSMap.set (currentState t) id data) t));
  closed_current_delete id :
    preserves P (onThis (fun t => setCurrentState (JSMap.delete (currentState t) id) t));
  closed_current_clear :
    preserves P (onThis (setCurrentState JSMap.empty));
  closed_original_set id data :
    preserves P (onThis (fun t => setOriginalState (JSMap.set (originalState t) id data) t));
  closed_removed_set id data :
    preserves P (onThis (fun t => setRemovedFields (JSMap.set (removedFields t) id data) t));
  closed_lastEvent e :
    preserves P (onThis (setLastEvent e));
  closed_newObject : preserves P newObject;
  closed_randomUUID : preserves P randomUUID;
  closed_setFormWatcherId f id : preserves P (setFormWatcherId f id);
  closed_callUser c : preserves P (callUser c);
  closed_debounced : preserves P debouncedCheckForChanges;
  closed_listeners : preserves P setupEventListeners;
  closed_observer : preserves P setupMutationObserver
}.

(** The three maps have no repeated key. *)
Definition wfWatcher (t : FormWatcher) : Prop :=
  JSMap.wf (originalState t) ∧ JSMap.wf (currentState t) ∧ JSMap.wf (removedFields t).

Definition wfWorld (w : World) : Prop := wfWatcher (this w).

(** Every pending timer is the one the debounced function set last. *)
Definition onePending (w : World) : Prop :=
  Forall (fun tm => timeoutId (this w) = Some (fst tm)) (timers (host w)).

(** [w] comes after [w0] within the handling of one event: no time has
    passed, the delay is the same, and either no timer was set and the
    table is the same, or a timer was set and the table holds one timer,
    due one delay from now. *)
Definition scheduledSince (w0 w : World) : Prop :=
  onePending w
  ∧ clock (host w) = clock (host w0)
  ∧ DEBOUNCE_DELAY (this w) = DEBOUNCE_DELAY (this w0)
  ∧ nextTimer (host w0) ≤ nextTimer (host w)
  ∧ (nextTimer (host w) = nextTimer (host w0) → timers (host w) = timers (host w0))
  ∧ (nextTimer (host w0) < nextTimer (host w) →
     ∃ id, timers (host w) = [(id, clock (host w) + DEBOUNCE_DELAY (this w))]).

(** What holds of every system that exists: the maps of an initialised
    instance have no repeated key, and a pending timer is the one its
    debounced function set last. *)
Definition goodSystem (s : System) : Prop :=
  match inst s with
  | Ready t =>
      wfWorld {| this := t; host := env s |} ∧ onePending {| this := t; host := env s |}
  | Inert => True
  end.

(** The loop of [resetState] as a function of the entries of
    [originalState], the next free address and the map filled so far. *)
Fixpoint copyEntries (entries : list (string * FieldState)) (a : nat)
    (acc : JSMap.t FieldState) : JSMap.t FieldState :=
  match entries with
  | [] => acc
  | (id, data) :: rest => copyEntries rest (S a) (JSMap.set acc id (spread a data))
  end.

(** ** Bursts of triggers *)



Definition play (burst : list (nat * Input)) : list Input :=
  flat_map (fun '(gap, i) => [Elapse gap; i]) burst.


(** What the user's function is called with when the diff of [t] runs. *)
Definition notification (t : FormWatcher) : list Call :=
  match onFormChanged t with
  | Some _ => [{| call_hasChanges := hasChanges t; call_changes := getChanges t;
                  call_event := lastEvent t |}]
  | None => []
  end.

(** Five commits of the field "x", 50 ms apart, on [watchedX]. *)
Definition commit (val : string) : Input :=
  EvChange (formWith [textInput 1 "x" val])
    {| ev_type := "change"; target := textInput 1 "x" val |}.

Definition fiveCommits : list (nat * Input) :=
  [(50, commit "ab"); (50, commit "abc"); (50, commit "abcd"); (50, commit "abcde")].

(** [removedFields] is [R]. *)
Definition keepsRemoved (R : JSMap.t FieldState) (w : World) : Prop :=
  removedFields (this w) = R.

(** ** Frames of the handlers that run after construction *)

(** [P] is kept by each elementary effect of the listeners, of the observer
    and of [resetState]: a write to [currentState], a write to
    [removedFields], a write to [lastEvent], the creation of an object, a
    UUID draw, a write to the data attribute and a call of the debounced
    function. None of them writes [originalState] or calls the user. *)
Record Kept (P : World → Prop) : Prop := {
  kept_current_set id data :
    preserves P (onThis (fun t => setCurrentState (JSMap.set (currentState t) id data) t));
  kept_current_delete id :
    preserves P (onThis (fun t => setCurrentState (JSMap.delete (currentState t) id) t));
  kept_current_clear :
    preserves P (onThis (setCurrentState JSMap.empty));
  kept_removed_set id data :
    preserves P (onThis (fun t => setRemovedFields (JSMap.set (removedFields t) id data) t));
  kept_lastEvent e :
    preserves P (onThis (setLastEvent e));
  kept_newObject : preserves P newObject;
  kept_randomUUID : preserves P randomUUID;
  kept_setFormWatcherId f id : preserves P (setFormWatcherId f id);
  kept_debounced : preserves P debouncedCheckForChanges
}.

(** [Q] is a property of the instance that no write to [currentState],
    [lastEvent] or [timeoutId] and no addition to [removedFields] can
    break. *)
Record Steady (Q : FormWatcher → Prop) : Prop := {
  steady_current m t : Q t → Q (setCurrentState m t);
  steady_removed id data t :
    Q t → Q (setRemovedFields (JSMap.set (removedFields t) id data) t);
  steady_lastEvent e t : Q t → Q (setLastEvent e t);
  steady_timeoutId i t : Q t → Q (setTimeoutId i t)
}.

(** The log of calls of the user's function is [log]. *)
Definition callsAre (log : list Call) (w : World) : Prop := calls (host w) = log.

(** ** Comparing the two diff entry points *)

(** The test the first loop of [checkForChanges] applies to one entry of
    [currentState], index.js 202-222. *)
Definition entryChanged (t : FormWatcher) (id : string) (data : FieldState) : bool :=
  match JSMap.get (originalState t) id with
  | None =>
      match JSMap.get (removedFields t) id with
      | Some removedData => snapshotDiffers removedData data
      | None => true
      end
  | Some originalData => snapshotDiffers originalData data
  end.

(** A record of [reAdded] whose previous value or checked state differs
    from the current one. *)
Definition reAddedDiffers (r : ReAdded) : bool :=
  negb (valuesAreEqual (previousValue r) (re_value r))
  || negb (checkedIdentical (previousChecked r) (re_checked r)).

(** The result of [getChanges] when there is nothing to report. *)
Definition noChanges : Changes :=
  {| added := []; removed := []; modified := []; reAdded := [] |}.

(** Two snapshots of the same element with the same value and checked
    state (they may be two objects). *)
Definition sameSnapshot (a b : FieldState) : Prop :=
  field a = field b ∧ value a = value b ∧ checked a = checked b.


(** ** Radio groups and exclusion *)

(** A radio button; it matches the selector [.skip] when [skip] is set. *)
Definition radio (n : nat) (id name : string) (on skip : bool) : Element :=
  {| el_node := n; el_tagName := "INPUT"; el_type := "radio"; el_id := id; el_name := name;
     el_value := id; el_checked := on; el_multiple := false;
     el_selectedOptions := []; el_matches := fun sel => skip && String.eqb sel ".skip" |}.

(** A form with two radios of the group "g", the second one excluded by the
    selector [.skip], watched from boot. *)
Definition skipOptions : Options :=
  {| debounceDelay := None; excludeSelectorsOpt := Some [".skip"];
     onFormChangedOpt := NotAFunction |}.

Definition watchedRadios : System :=
  constructWith
    (Some (formWith [radio 1 "r1" "g" true false; radio 2 "r2" "g" false true]))
    skipOptions (bootHost ∅ noUuid noMatch).




(** No snapshot of the instance is a snapshot of the element [n]. *)
Definition untracked (n : nat) (t : FormWatcher) : Prop :=
  ∀ id d,
    (id, d) ∈ originalState t ∨ (id, d) ∈ currentState t ∨ (id, d) ∈ removedFields t →
    field d ≠ n.








(** * Properties *)

(** ** Maps *)

Section JSMapFacts.
Context {V : Type}.
Implicit Types (m : JSMap.t V) (k : string) (v : V).

Lemma jsmap_has_true m k : JSMap.has m k = true ↔ ∃ v, JSMap.get m k = Some v.
Proof.
  unfold JSMap.has. destruct (JSMap.get m k) as [v|]; split.
  - eauto.
  - done.
  - done.
  - intros [v ?]; done.
Qed.

Lemma jsmap_has_false m k : JSMap.has m k = false ↔ JSMap.get m k = None.
Proof. unfold JSMap.has. destruct (JSMap.get m k); split; done. Qed.

Lemma jsmap_get_elem m k v : JSMap.get m k = Some v → (k, v) ∈ m.
Proof.
  induction m as [|[k' v'] m IH]; simpl; [done|].
  destruct (String.eqb_spec k' k) as [->|Hne].
  - intros [= ->]. apply elem_of_cons; by left.
  - intros H. apply elem_of_cons; right; auto.
Qed.

Lemma jsmap_get_key m k v : JSMap.get m k = Some v → k ∈ JSMap.keys m.
Proof.
  intros H. apply jsmap_get_elem in H.
  unfold JSMap.keys. change k with (fst (k, v)). by apply list_elem_of_fmap_2.
Qed.

Lemma jsmap_key_has m k : k ∈ JSMap.keys m ↔ JSMap.has m k = true.
Proof.
  rewrite jsmap_has_true. split.
  - induction m as [|[k' v'] m IH]; simpl; [by intros ?%elem_of_nil|].
    intros [->|Hin]%elem_of_cons.
    + rewrite String.eqb_refl. eauto.
    + destruct (String.eqb k' k); eauto.
  - intros [v Hv]. by eapply jsmap_get_key.
Qed.

Lemma jsmap_elem_has m k v : (k, v) ∈ m → JSMap.has m k = true.
Proof.
  intros H. apply jsmap_key_has. unfold JSMap.keys.
  change k with (fst (k, v)). by apply list_elem_of_fmap_2.
Qed.

Lemma jsmap_elem_get m k v : JSMap.wf m → (k, v) ∈ m → JSMap.get m k = Some v.
Proof.
  unfold JSMap.wf. induction m as [|[k' v'] m IH]; simpl.
  - by intros _ ?%elem_of_nil.
  - intros [Hnotin Hnd]%NoDup_cons [Heq|Hin]%elem_of_cons.
    + injection Heq as -> ->. by rewrite String.eqb_refl.
    + destruct (String.eqb_spec k' k) as [->|Hne]; [|auto].
      exfalso. apply Hnotin. change k with (fst (k, v)). by apply list_elem_of_fmap_2.
Qed.

Lemma jsmap_get_set_eq m k v : JSMap.get (JSMap.set m k v) k = Some v.
Proof.
  induction m as [|[k' v'] m IH]; simpl.
  - by rewrite String.eqb_refl.
  - destruct (String.eqb k' k) eqn:E; simpl; by rewrite E.
Qed.

Lemma jsmap_get_set_ne m k k' v : k ≠ k' → JSMap.get (JSMap.set m k v) k' = JSMap.get m k'.
Proof.
  intros Hne. induction m as [|[k0 v0] m IH]; simpl.
  - by apply String.eqb_neq in Hne as ->.
  - destruct (String.eqb_spec k0 k) as [->|Hk]; simpl.
    + by apply String.eqb_neq in Hne as ->.
    + by rewrite IH.
Qed.

Lemma jsmap_keys_set m k v :
  JSMap.keys (JSMap.set m k v) =
  if JSMap.has m k then JSMap.keys m else JSMap.keys m ++ [k].
Proof.
  unfold JSMap.has. induction m as [|[k0 v0] m IH]; simpl; [done|].
  destruct (String.eqb_spec k0 k) as [->|Hk]; simpl; [done|].
  rewrite IH. by destruct (JSMap.get m k).
Qed.

Lemma jsmap_wf_set m k v : JSMap.wf m → JSMap.wf (JSMap.set m k v).
Proof.
  unfold JSMap.wf. intros Hwf. rewrite jsmap_keys_set.
  destruct (JSMap.has m k) eqn:E; [done|].
  apply NoDup_app. split_and!; [done| |apply NoDup_singleton].
  intros x Hx ->%list_elem_of_singleton.
  apply jsmap_key_has in Hx. congruence.
Qed.

Lemma jsmap_keys_delete_subseteq m k x :
  x ∈ JSMap.keys (JSMap.delete m k) → x ∈ JSMap.keys m.
Proof.
  induction m as [|[k0 v0] m IH]; simpl; [done|].
  destruct (String.eqb k0 k); simpl.
  - intros ?. apply elem_of_cons; by right.
  - intros [->|?]%elem_of_cons; apply elem_of_cons; auto.
Qed.

Lemma jsmap_wf_delete m k : JSMap.wf m → JSMap.wf (JSMap.delete m k).
Proof.
  unfold JSMap.wf. induction m as [|[k0 v0] m IH]; simpl; [done|].
  intros [Hnotin Hnd]%NoDup_cons.
  destruct (String.eqb k0 k); simpl; [done|].
  apply NoDup_cons. split; [|auto].
  intros ?%jsmap_keys_delete_subseteq. by apply Hnotin.
Qed.


Lemma jsmap_get_delete_eq m k : JSMap.wf m → JSMap.get (JSMap.delete m k) k = None.
Proof.
  unfold JSMap.wf. induction m as [|[k0 v0] m IH]; simpl; [done|].
  intros [Hnotin Hnd]%NoDup_cons.
  destruct (String.eqb_spec k0 k) as [->|Hk]; simpl.
  - destruct (JSMap.get m k) eqn:E; [|done].
    exfalso. apply Hnotin. by eapply jsmap_get_key.
  - apply String.eqb_neq in Hk as ->. auto.
Qed.


End JSMapFacts.

(** ** Equality of values and snapshots *)

Lemma every_at_spec (value2 value1 : list string) (index : nat) :
  every_at value2 index value1 = true ↔
  ∀ j x, nth_error value1 j = Some x → nth_error value2 (index + j) = Some x.
Proof.
  revert index. induction value1 as [|val rest IH]; intros index; simpl.
  - split; [|done]. intros _ [|j] x; done.
  - split.
    + intros H [|j] x; simpl.
      * intros [= <-]. rewrite Nat.add_0_r.
        destruct (nth_error value2 index) as [other|]; [|done].
        apply andb_true_iff in H as [->%String.eqb_eq _]. done.
      * intros Hj. destruct (nth_error value2 index) as [other|]; [|done].
        apply andb_true_iff in H as [_ H]. apply IH with (j := j) (x := x) in H; [|done].
        by rewrite Nat.add_succ_r.
    + intros H. pose proof (H 0 val eq_refl) as H0. rewrite Nat.add_0_r in H0.
      rewrite H0, String.eqb_refl. simpl. apply IH.
      intros j x Hj. specialize (H (S j) x Hj). by rewrite Nat.add_succ_r in H.
Qed.

Lemma valuesAreEqual_arrays (a1 a2 : list string) :
  valuesAreEqual (Arr a1) (Arr a2) = true ↔
  length a1 = length a2 ∧ ∀ i, nth_error a1 i = nth_error a2 i.
Proof.
  simpl. destruct (Nat.eqb_spec (length a1) (length a2)) as [Hlen|Hlen]; simpl.
  - rewrite every_at_spec. split.
    + intros H. split; [done|]. intros i.
      destruct (nth_error a1 i) as [x|] eqn:E.
      * symmetry. by apply (H i x).
      * symmetry. apply nth_error_None. apply nth_error_None in E. lia.
    + intros [_ H] j x Hj. simpl. by rewrite <- H.
  - split; [done|]. intros [? _]. done.
Qed.

Lemma valuesAreEqual_eq (v1 v2 : Value) : valuesAreEqual v1 v2 = true ↔ v1 = v2.
Proof.
  destruct v1 as [s1|a1], v2 as [s2|a2]; try (simpl; split; done).
  - simpl. rewrite String.eqb_eq. split; congruence.
  - rewrite valuesAreEqual_arrays. split.
    + intros [_ H]. f_equal. revert a2 H. induction a1 as [|x a1 IH]; intros [|y a2] H.
      * done.
      * specialize (H 0). done.
      * specialize (H 0). done.
      * pose proof (H 0) as H0. simpl in H0. injection H0 as ->. f_equal.
        apply IH. intros i. apply (H (S i)).
    + intros [= ->]. done.
Qed.

Lemma checkedIdentical_eq (c1 c2 : option bool) : checkedIdentical c1 c2 = true ↔ c1 = c2.
Proof. destruct c1 as [[]|], c2 as [[]|]; simpl; split; done. Qed.

Lemma snapshotDiffers_false (a b : FieldState) :
  snapshotDiffers a b = false ↔ value a = value b ∧ checked a = checked b.
Proof.
  unfold snapshotDiffers. rewrite orb_false_iff, !negb_false_iff.
  by rewrite valuesAreEqual_eq, checkedIdentical_eq.
Qed.

Lemma snapshotDiffers_spread (a : nat) (data : FieldState) :
  snapshotDiffers data (spread a data) = false.
Proof. by apply snapshotDiffers_false. Qed.

(** C7. The equality the two diff entry points share holds exactly when the
    values are two sequences of equal length with pairwise-equal elements, or
    two scalars that are equal, and the [checked] properties are identical
    (both absent included). The sequences ["a","b"] and ["b","a"] are not
    equal; ["a","b"] and ["a","b"] are. *)
Theorem snapshot_equality_rule :
  (∀ a b : FieldState,
     snapshotEqual a b = true ↔
     ((∃ l1 l2, value a = Arr l1 ∧ value b = Arr l2 ∧ length l1 = length l2 ∧
                ∀ i, nth_error l1 i = nth_error l2 i)
      ∨ (∃ s1 s2, value a = Str s1 ∧ value b = Str s2 ∧ s1 = s2))
     ∧ checked a = checked b)
  ∧ valuesAreEqual (Arr ["a"; "b"]) (Arr ["b"; "a"]) = false
  ∧ valuesAreEqual (Arr ["a"; "b"]) (Arr ["a"; "b"]) = true.
Proof.
  split; [|done]. intros a b.
  unfold snapshotEqual, snapshotDiffers.
  rewrite negb_true_iff, orb_false_iff, !negb_false_iff, checkedIdentical_eq.
  apply and_iff_compat_r. split.
  - destruct (value a) as [s1|l1] eqn:Ea, (value b) as [s2|l2] eqn:Eb; try done.
    + intros ->%String.eqb_eq. right. by exists s2, s2.
    + intros [? ?]%valuesAreEqual_arrays. left. by exists l1, l2.
  - intros [(l1 & l2 & -> & -> & Hlen & Hnth)|(s1 & s2 & -> & -> & ->)].
    + by apply valuesAreEqual_arrays.
    + simpl. apply String.eqb_refl.
Qed.

(** ** The classification computed by [getChanges] *)

Lemma exists_entry_cons (P : string → FieldState → Prop) id data
    (rest : list (string * FieldState)) :
  (∃ id' data', (id', data') ∈ (id, data) :: rest ∧ P id' data') ↔
  P id data ∨ ∃ id' data', (id', data') ∈ rest ∧ P id' data'.
Proof.
  split.
  - intros (id' & data' & [Heq|Hin]%elem_of_cons & HP).
    + injection Heq as -> ->. by left.
    + right. eauto.
  - intros [HP|(id' & data' & Hin & HP)].
    + exists id, data. split; [apply elem_of_cons; by left|done].
    + exists id', data'. split; [apply elem_of_cons; by right|done].
Qed.

Lemma exists_entry_nil (P : string → FieldState → Prop) :
  (∃ id' data', (id', data') ∈ @nil (string * FieldState) ∧ P id' data') ↔ False.
Proof. split; [|done]. by intros (? & ? & ?%elem_of_nil & _). Qed.

Section Classification.
Variable t : FormWatcher.

Lemma classify_removed entries changes :
  removed (classify t entries changes) = removed changes.
Proof.
  revert changes. induction entries as [|[id data] rest IH]; intros changes; simpl; [done|].
  rewrite IH. by repeat case_match.
Qed.

Lemma classify_added entries changes c :
  c ∈ added (classify t entries changes) ↔
  c ∈ added changes ∨
  ∃ id data, (id, data) ∈ entries ∧
    (JSMap.get (originalState t) id = None ∧
     JSMap.get (removedFields t) id = None ∧ c = asChange id data).
Proof.
  revert changes. induction entries as [|[id data] rest IH]; intros changes.
  - rewrite exists_entry_nil. simpl. tauto.
  - rewrite exists_entry_cons. simpl. rewrite IH.
    destruct (JSMap.get (originalState t) id) as [originalData|] eqn:Eo.
    + destruct (snapshotDiffers originalData data); simpl; naive_solver.
    + destruct (JSMap.get (removedFields t) id) as [removedData|] eqn:Er; simpl.
      * naive_solver.
      * rewrite elem_of_app, list_elem_of_singleton. unfold asChange. naive_solver.
Qed.

Lemma classify_reAdded entries changes c :
  c ∈ reAdded (classify t entries changes) ↔
  c ∈ reAdded changes ∨
  ∃ id data, (id, data) ∈ entries ∧
    (JSMap.get (originalState t) id = None ∧
     ∃ removedData, JSMap.get (removedFields t) id = Some removedData ∧
                    c = asReAdded id data removedData).
Proof.
  revert changes. induction entries as [|[id data] rest IH]; intros changes.
  - rewrite exists_entry_nil. simpl. tauto.
  - rewrite exists_entry_cons. simpl. rewrite IH.
    destruct (JSMap.get (originalState t) id) as [originalData|] eqn:Eo.
    + destruct (snapshotDiffers originalData data); simpl; naive_solver.
    + destruct (JSMap.get (removedFields t) id) as [removedData|] eqn:Er; simpl.
      * rewrite elem_of_app, list_elem_of_singleton. unfold asReAdded. naive_solver.
      * naive_solver.
Qed.

Lemma classify_modified entries changes c :
  c ∈ modified (classify t entries changes) ↔
  c ∈ modified changes ∨
  ∃ id data, (id, data) ∈ entries ∧
    (∃ originalData, JSMap.get (originalState t) id = Some originalData ∧
       snapshotDiffers originalData data = true ∧ c = asModified id originalData data).
Proof.
  revert changes. induction entries as [|[id data] rest IH]; intros changes.
  - rewrite exists_entry_nil. simpl. tauto.
  - rewrite exists_entry_cons. simpl. rewrite IH.
    destruct (JSMap.get (originalState t) id) as [originalData|] eqn:Eo.
    + destruct (snapshotDiffers originalData data) eqn:Ed; simpl.
      * rewrite elem_of_app, list_elem_of_singleton. unfold asModified. naive_solver.
      * split; [naive_solver|].
        intros [?|[(od & [= <-] & Hd & ?)|?]]; [auto|congruence|auto].
    + destruct (JSMap.get (removedFields t) id) as [removedData|] eqn:Er; simpl; naive_solver.
Qed.

Lemma collectRemoved_others entries changes :
  added (collectRemoved t entries changes) = added changes ∧
  modified (collectRemoved t entries changes) = modified changes ∧
  reAdded (collectRemoved t entries changes) = reAdded changes.
Proof.
  revert changes. induction entries as [|[id data] rest IH]; intros changes; simpl; [done|].
  match goal with |- context [collectRemoved t rest ?c] => destruct (IH c) as (-> & -> & ->) end.
  by case_match.
Qed.

Lemma collectRemoved_removed entries changes c :
  c ∈ removed (collectRemoved t entries changes) ↔
  c ∈ removed changes ∨
  ∃ id data, (id, data) ∈ entries ∧
    (JSMap.has (currentState t) id = false ∧ c = asChange id data).
Proof.
  revert changes. induction entries as [|[id data] rest IH]; intros changes.
  - rewrite exists_entry_nil. simpl. tauto.
  - rewrite exists_entry_cons. simpl. rewrite IH.
    destruct (JSMap.has (currentState t) id) eqn:E; simpl.
    + naive_solver.
    + rewrite elem_of_app, list_elem_of_singleton. unfold asChange. naive_solver.
Qed.

(** What [getChanges] puts in each list. *)
Lemma getChanges_added c :
  c ∈ added (getChanges t) ↔
  ∃ id data, (id, data) ∈ currentState t ∧
    (JSMap.get (originalState t) id = None ∧
     JSMap.get (removedFields t) id = None ∧ c = asChange id data).
Proof.
  unfold getChanges.
  match goal with |- context [collectRemoved t ?es ?c] =>
    destruct (collectRemoved_others es c) as (-> & _ & _) end.
  rewrite classify_added. simpl. rewrite elem_of_nil. tauto.
Qed.

Lemma getChanges_reAdded c :
  c ∈ reAdded (getChanges t) ↔
  ∃ id data, (id, data) ∈ currentState t ∧
    (JSMap.get (originalState t) id = None ∧
     ∃ removedData, JSMap.get (removedFields t) id = Some removedData ∧
                    c = asReAdded id data removedData).
Proof.
  unfold getChanges.
  match goal with |- context [collectRemoved t ?es ?c] =>
    destruct (collectRemoved_others es c) as (_ & _ & ->) end.
  rewrite classify_reAdded. simpl. rewrite elem_of_nil. tauto.
Qed.

Lemma getChanges_modified c :
  c ∈ modified (getChanges t) ↔
  ∃ id data, (id, data) ∈ currentState t ∧
    (∃ originalData, JSMap.get (originalState t) id = Some originalData ∧
       snapshotDiffers originalData data = true ∧ c = asModified id originalData data).
Proof.
  unfold getChanges.
  match goal with |- context [collectRemoved t ?es ?c] =>
    destruct (collectRemoved_others es c) as (_ & -> & _) end.
  rewrite classify_modified. simpl. rewrite elem_of_nil. tauto.
Qed.

Lemma getChanges_removed c :
  c ∈ removed (getChanges t) ↔
  ∃ id data, (id, data) ∈ originalState t ∧
    (JSMap.has (currentState t) id = false ∧ c = asChange id data).
Proof.
  unfold getChanges. rewrite collectRemoved_removed, classify_removed.
  simpl. rewrite elem_of_nil. tauto.
Qed.

End Classification.

(** ** Exclusive categories *)

Lemma live_entry_has (t : FormWatcher) id data :
  (id, data) ∈ currentState t → JSMap.has (currentState t) id = true.
Proof. apply jsmap_elem_has. Qed.

(** C8. Every id of [originalState] that [currentState] lacks is listed in
    [removed], and an id listed in [removed] is in none of [added],
    [modified], [reAdded]; moreover no id is in two of these three. *)
Theorem removed_is_exclusive (t : FormWatcher) :
  (∀ id, JSMap.has (originalState t) id = true → JSMap.has (currentState t) id = false →
         id ∈ (ch_id <$> removed (getChanges t)))
  ∧ (∀ id, id ∈ (ch_id <$> removed (getChanges t)) →
           (id ∉ (ch_id <$> added (getChanges t)))
           ∧ (id ∉ (mod_id <$> modified (getChanges t)))
           ∧ (id ∉ (re_id <$> reAdded (getChanges t))))
  ∧ (∀ id, id ∈ (ch_id <$> added (getChanges t)) →
           (id ∉ (mod_id <$> modified (getChanges t)))
           ∧ (id ∉ (re_id <$> reAdded (getChanges t))))
  ∧ (∀ id, id ∈ (mod_id <$> modified (getChanges t)) →
           (id ∉ (re_id <$> reAdded (getChanges t)))).
Proof.
  split_and!.
  - intros id [data Hget]%jsmap_has_true Hlive.
    apply list_elem_of_fmap. exists (asChange id data). split; [done|].
    apply getChanges_removed. exists id, data. split; [by apply jsmap_get_elem|done].
  - intros id (c & -> & Hc)%list_elem_of_fmap.
    apply getChanges_removed in Hc as (id & data & _ & Hnot & ->). simpl.
    split_and!; intros (c & Hid & Hc)%list_elem_of_fmap.
    + apply getChanges_added in Hc as (id' & data' & Hin%live_entry_has & _ & _ & ->).
      simpl in Hid. congruence.
    + apply getChanges_modified in Hc as (id' & data' & Hin%live_entry_has & od & _ & _ & ->).
      simpl in Hid. congruence.
    + apply getChanges_reAdded in Hc as (id' & data' & Hin%live_entry_has & _ & rd & _ & ->).
      simpl in Hid. congruence.
  - intros id (c & -> & Hc)%list_elem_of_fmap.
    apply getChanges_added in Hc as (id & data & _ & Hno & Hnr & ->). simpl.
    split; intros (c & Hid & Hc)%list_elem_of_fmap.
    + apply getChanges_modified in Hc as (id' & data' & _ & od & Ho & _ & ->).
      simpl in Hid. congruence.
    + apply getChanges_reAdded in Hc as (id' & data' & _ & _ & rd & Hr & ->).
      simpl in Hid. congruence.
  - intros id (c & -> & Hc)%list_elem_of_fmap.
    apply getChanges_modified in Hc as (id & data & _ & od & Ho & _ & ->). simpl.
    intros (c & Hid & Hc)%list_elem_of_fmap.
    apply getChanges_reAdded in Hc as (id' & data' & _ & Hno & rd & _ & ->).
    simpl in Hid. congruence.
Qed.

(** ** A field that comes back unchanged *)







(** ** Scenarios *)

Lemma baseline_field_never_reAdded (t : FormWatcher) (id : string) :
  JSMap.has (originalState t) id = true → id ∉ (re_id <$> reAdded (getChanges t)).
Proof.
  intros [od Hod]%jsmap_has_true (c & -> & Hc)%list_elem_of_fmap.
  apply getChanges_reAdded in Hc as (id' & data' & _ & Hno & rd & _ & ->).
  simpl in Hod. congruence.
Qed.

(** C2, as the code has it. The text field "x" with value "A" is in the
    baseline. Once it is removed from the form, [getChanges().removed] has an
    entry with id "x" and value "A". Once an element with id "x" and value "B"
    is inserted, the field is listed in [modified] (original "A", current
    "B"), [reAdded] is empty and [checkForChanges()] returns [true]; if the
    element has value "A" instead, [checkForChanges()] returns [false] and
    [reAdded] has no entry for "x". *)
Theorem baseline_field_comes_back :
  removed (getChanges (watcherOf removedX))
    = [{| ch_id := "x"; ch_field := 1; ch_value := Str "A"; ch_checked := None |}]
  ∧ modified (getChanges (watcherOf reinsertedB))
    = [{| mod_id := "x";
          original := {| addr := 0; field := 1; value := Str "A"; checked := None |};
          current := {| addr := 2; field := 2; value := Str "B"; checked := None |} |}]
  ∧ reAdded (getChanges (watcherOf reinsertedB)) = []
  ∧ snd (step CallCheckForChanges reinsertedB) = [ReturnedBool true]
  ∧ snd (step CallCheckForChanges reinsertedA) = [ReturnedBool false]
  ∧ "x" ∉ (re_id <$> reAdded (getChanges (watcherOf reinsertedA))).
Proof.
  split_and!; try (vm_compute; reflexivity).
  apply baseline_field_never_reAdded. vm_compute; reflexivity.
Qed.

(** C2, as the spec states it, fails: after the field "x" is inserted again
    with value "B", [getChanges().reAdded] holds no record with id "x", value
    "B" and previous value "A". *)
Lemma baseline_field_not_reAdded :
  ¬ ∃ r, r ∈ reAdded (getChanges (watcherOf reinsertedB))
         ∧ re_id r = "x" ∧ re_value r = Str "B" ∧ previousValue r = Str "A".
Proof.
  intros (r & Hr & _).
  assert (E : reAdded (getChanges (watcherOf reinsertedB)) = []) by (vm_compute; reflexivity).
  rewrite E in Hr. by apply elem_of_nil in Hr.
Qed.

(** C1: [resetState()] on the code. The baseline holds "A" for the field
    "x" and the live state holds "B". After [resetState()] the baseline still
    holds "A", not a copy of the live "B", and it is the live state that now
    holds a copy of the baseline entry. *)
Theorem resetState_overwrites_live_state :
  originalState (watcherOf typedB)
    = [("x", {| addr := 0; field := 1; value := Str "A"; checked := None |})]
  ∧ currentState (watcherOf typedB)
    = [("x", {| addr := 2; field := 1; value := Str "B"; checked := None |})]
  ∧ originalState (watcherOf typedBThenReset)
    = [("x", {| addr := 0; field := 1; value := Str "A"; checked := None |})]
  ∧ currentState (watcherOf typedBThenReset)
    = [("x", {| addr := 3; field := 1; value := Str "A"; checked := None |})].
Proof. vm_compute. repeat split. Qed.

(** C5: the event passed to the callback after a structural insertion. The
    user types in "x" and the diff runs: the callback receives the input
    event. A field is then inserted in the form and the diff runs again: the
    callback receives the same input event, not [null]. *)
Theorem insertion_keeps_last_event :
  call_event <$> calls (env typedThenInserted) = [Some typesB; Some typesB]
  ∧ added <$> (call_changes <$> calls (env typedThenInserted))
    = [ [];
        [{| ch_id := "y"; ch_field := 2; ch_value := Str "v"; ch_checked := None |}] ].
Proof. vm_compute. repeat split. Qed.

(** ** Construction on a target that does not resolve *)

(** What the constructor does depends on its first statement alone. *)
Lemma construct_returned (target : Target) (options : Options) (h : Host) (s : System) :
  construct target options h = Returned s ↔
  ∃ form, resolve target h = Returned form ∧ s = constructWith form options h.
Proof.
  unfold construct. destruct (resolve target h) as [form|error].
  - split.
    + intros [= <-]. by exists form.
    + by intros (form' & [= <-] & ->).
  - split; [done|]. by intros (form' & ? & _).
Qed.

(** The targets that resolve to no element: [null] or [undefined] given for
    the element, and a selector that the document parses and that no element
    matches. *)
Lemma resolve_none (target : Target) (h : Host) :
  resolve target h = Returned None ↔
  target = ElementRef None ∨ ∃ sel, target = Selector sel ∧ document h sel = Returned None.
Proof.
  destruct target as [sel|n]; simpl.
  - split; [intros Hd; right; by exists sel|].
    intros [?|(sel' & [= <-] & Hd)]; done.
  - split; [intros [= ->]; by left|].
    intros [[= ->]|(sel' & ? & _)]; done.
Qed.

(** A string that the document does not parse as a selector makes the
    constructor throw what [document.querySelector] throws; the caller gets
    no instance, and nothing is logged. *)
Lemma construct_throws (target : Target) (options : Options) (h : Host) (error : string) :
  construct target options h = Thrown error ↔
  ∃ sel, target = Selector sel ∧ document h sel = Thrown error.
Proof.
  unfold construct. destruct target as [sel|n]; simpl.
  - destruct (document h sel) as [form|error'] eqn:Hd.
    + split; [done|]. intros (sel' & [= <-] & Hd'). congruence.
    + split.
      * intros [= ->]. by exists sel.
      * intros (sel' & [= <-] & Hd'). congruence.
  - split; [done|]. by intros (sel' & ? & _).
Qed.

(** Given as an element, the form is there whatever the document answers. *)
Lemma reachable_constructWith form options ds uuids doc :
  reachable (constructWith form options (bootHost ds uuids doc)).
Proof. by apply (reach_construct ds uuids doc (ElementRef form) options). Qed.

Lemma construct_empty_selector :
  construct (Selector "") noOptions (bootHost ∅ noUuid noMatch) = Thrown "SyntaxError".
Proof. reflexivity. Qed.

(** The sample systems are what the constructor returns. *)
Lemma notFound_constructed :
  construct (Selector "#missing") noOptions (bootHost ∅ noUuid noMatch) = Returned notFound.
Proof. reflexivity. Qed.

Lemma watchedX_constructed :
  construct (ElementRef (Some (formWith [textInput 1 "x" "A"]))) withCallback
    (bootHost ∅ noUuid noMatch) = Returned watchedX.
Proof. reflexivity. Qed.

Lemma watchedRadios_constructed :
  construct
    (ElementRef (Some (formWith [radio 1 "r1" "g" true false; radio 2 "r2" "g" false true])))
    skipOptions (bootHost ∅ noUuid noMatch) = Returned watchedRadios.
Proof. reflexivity. Qed.

(** C4, as the code has it. When the target resolves to no element ([null]
    or [undefined] given for the element, or a selector that the document
    parses and that no element matches), the constructor returns: it logs
    "Form not found" and leaves an instance without any property of its own,
    registers no listener and no observer and sets no timer; events,
    mutations and the passing of time then leave the instance as it is and
    produce nothing, and each public method raises a [TypeError]. *)
Theorem construct_unresolved (target : Target) (options : Options) (h : Host) :
  resolve target h = Returned None →
  ∃ s, construct target options h = Returned s
       ∧ inst s = Inert
       ∧ console (env s) = console h ++ ["Form not found"]
       ∧ listeners (env s) = listeners h
       ∧ observing (env s) = observing h
       ∧ timers (env s) = timers h
       ∧ (∀ i, match i with
               | EvChange _ _ | EvInput _ | EvMutations _ | Elapse _ => True
               | _ => False
               end →
               inst (fst (step i s)) = Inert ∧ snd (step i s) = [])
       ∧ snd (step CallCheckForChanges s) = [Threw "TypeError"]
       ∧ snd (step CallGetChanges s) = [Threw "TypeError"]
       ∧ snd (step CallResetState s) = [Threw "TypeError"].
Proof.
  intros Hres. exists (constructWith None options h).
  split; [apply construct_returned; by exists None|].
  simpl. split_and!; try done.
  intros [form e|e|ms|ms| | | |n v] Hi; try done.
Qed.

Lemma construct_unresolved_witness :
  ∃ s, construct (Selector "#missing") noOptions (bootHost ∅ noUuid noMatch) = Returned s
       ∧ inst s = Inert
       ∧ console (env s) = ["Form not found"]
       ∧ listeners (env s) = []
       ∧ observing (env s) = false
       ∧ timers (env s) = []
       ∧ (∀ i, match i with
               | EvChange _ _ | EvInput _ | EvMutations _ | Elapse _ => True
               | _ => False
               end →
               inst (fst (step i s)) = Inert ∧ snd (step i s) = [])
       ∧ snd (step CallCheckForChanges s) = [Threw "TypeError"]
       ∧ snd (step CallGetChanges s) = [Threw "TypeError"]
       ∧ snd (step CallResetState s) = [Threw "TypeError"].
Proof.
  apply (construct_unresolved (Selector "#missing") noOptions
           (bootHost ∅ noUuid noMatch)).
  reflexivity.
Defined.

(** C4, as the spec states it, fails: on such an instance each public method
    raises a [TypeError] instead of doing nothing or answering a default. *)
Lemma public_methods_throw_when_not_found :
  snd (step CallCheckForChanges notFound) = [Threw "TypeError"]
  ∧ snd (step CallGetChanges notFound) = [Threw "TypeError"]
  ∧ snd (step CallResetState notFound) = [Threw "TypeError"].
Proof. vm_compute. repeat split. Qed.

(** ** Invariants *)

Section Preservation.
Context (P : World → Prop).

Lemma preserves_ret {A} (a : A) : preserves P (ret a).
Proof. by intros w Hw. Qed.

Lemma preserves_gets {A} (f : World → A) : preserves P (gets f).
Proof. by intros w Hw. Qed.

Lemma preserves_bind {A B} (m : M A) (k : A → M B) :
  preserves P m → (∀ a, preserves P (k a)) → preserves P (bind m k).
Proof.
  intros Hm Hk w Hw. unfold bind. specialize (Hm w Hw).
  destruct (m w) as [a w']. by apply Hk.
Qed.

Lemma preserves_forEach {A} (l : list A) (body : A → M unit) :
  (∀ x, preserves P (body x)) → preserves P (forEach l body).
Proof.
  intros Hbody. induction l as [|x rest IH]; simpl.
  - apply preserves_ret.
  - apply preserves_bind; [apply Hbody|]. by intros _.
Qed.

Context (HP : Closed P).

Ltac preserving :=
  repeat match goal with
    | |- preserves _ (ret _) => apply preserves_ret
    | |- preserves _ (gets _) => apply preserves_gets
    | |- preserves _ (forEach _ _) => apply preserves_forEach; intros ?
    | |- preserves _ (bind _ _) => apply preserves_bind; [|intros ?]
    | |- preserves _ (onThis (setCurrentState JSMap.empty)) =>
        apply (closed_current_clear P HP)
    | |- preserves _ (onThis (setLastEvent _)) => apply (closed_lastEvent P HP)
    | |- preserves _ (onThis _) =>
        first [ apply (closed_current_set P HP)
              | apply (closed_current_delete P HP)
              | apply (closed_original_set P HP)
              | apply (closed_removed_set P HP) ]
    | |- preserves _ newObject => apply (closed_newObject P HP)
    | |- preserves _ randomUUID => apply (closed_randomUUID P HP)
    | |- preserves _ (setFormWatcherId _ _) => apply (closed_setFormWatcherId P HP)
    | |- preserves _ (callUser _) => apply (closed_callUser P HP)
    | |- preserves _ debouncedCheckForChanges => apply (closed_debounced P HP)
    | |- preserves _ setupEventListeners => apply (closed_listeners P HP)
    | |- preserves _ setupMutationObserver => apply (closed_observer P HP)
    | |- preserves _ (if ?b then _ else _) => destruct b
    | |- preserves _ (match ?x with _ => _ end) => destruct x
    end.

Lemma preserves_getOrSetFieldID f : preserves P (getOrSetFieldID f).
Proof. unfold getOrSetFieldID. preserving. Qed.

Lemma preserves_formatFieldState f : preserves P (formatFieldState f).
Proof. unfold formatFieldState. preserving. Qed.

Lemma preserves_updateCurrentState f : preserves P (updateCurrentState f).
Proof.
  unfold updateCurrentState.
  apply preserves_bind; [apply preserves_getOrSetFieldID|intros id].
  apply preserves_bind; [apply preserves_formatFieldState|intros s].
  preserving.
Qed.

Lemma preserves_initializeState form : preserves P (initializeState form).
Proof.
  unfold initializeState, isExcludedM.
  apply preserves_forEach; intros f.
  apply preserves_bind; [apply preserves_gets|intros []]; [apply preserves_ret|].
  apply preserves_bind; [apply preserves_getOrSetFieldID|intros id].
  apply preserves_bind; [apply preserves_formatFieldState|intros s1].
  apply preserves_bind; [apply (closed_original_set P HP)|intros _].
  apply preserves_bind; [apply preserves_formatFieldState|intros s2].
  apply (closed_current_set P HP).
Qed.

Lemma preserves_onChange form e : preserves P (onChange form e).
Proof.
  unfold onChange, isExcludedM.
  apply preserves_bind; [apply preserves_gets|intros excluded].
  destruct (_ && _); [|apply preserves_ret].
  apply preserves_bind; [apply (closed_lastEvent P HP)|intros _].
  destruct (_ && _).
  - apply preserves_forEach; intros f. apply preserves_updateCurrentState.
  - apply preserves_updateCurrentState.
Qed.

Lemma preserves_onInput e : preserves P (onInput e).
Proof.
  unfold onInput, isExcludedM.
  apply preserves_bind; [apply preserves_gets|intros excluded].
  destruct (_ && _); [|apply preserves_ret].
  apply preserves_bind; [apply (closed_lastEvent P HP)|intros _].
  apply preserves_updateCurrentState.
Qed.

Lemma preserves_onAddedField f : preserves P (onAddedField f).
Proof.
  unfold onAddedField, isExcludedM.
  apply preserves_bind; [apply preserves_gets|intros []]; [apply preserves_ret|].
  apply preserves_updateCurrentState.
Qed.

Lemma preserves_onRemovedField f : preserves P (onRemovedField f).
Proof. unfold onRemovedField, isExcludedM. preserving. Qed.

Lemma preserves_onMutations mutations : preserves P (onMutations mutations).
Proof.
  unfold onMutations.
  apply preserves_forEach; intros mutation.
  apply preserves_bind; [|intros _].
  - apply preserves_forEach; intros n. apply preserves_forEach; intros f.
    apply preserves_onAddedField.
  - apply preserves_forEach; intros n. apply preserves_forEach; intros f.
    apply preserves_onRemovedField.
Qed.

Lemma preserves_checkForChanges : preserves P checkForChanges.
Proof. unfold checkForChanges. preserving. Qed.

Lemma preserves_resetState : preserves P resetState.
Proof. unfold resetState, copyEntry. preserving. Qed.

Lemma preserves_constructor form :
  preserves P (initializeState form >> setupEventListeners >> setupMutationObserver).
Proof.
  apply preserves_bind; [apply preserves_initializeState|intros _].
  apply preserves_bind; [apply (closed_listeners P HP)|intros _].
  apply (closed_observer P HP).
Qed.

End Preservation.

(** *** The maps stay maps *)

Lemma wfWorld_closed : Closed wfWorld.
Proof.
  split; try (intros; intros w H; exact H).
  - intros id data w (Ho & Hc & Hr). split_and!; [done| |done]. by apply jsmap_wf_set.
  - intros id w (Ho & Hc & Hr). split_and!; [done| |done]. by apply jsmap_wf_delete.
  - intros w (Ho & Hc & Hr). split_and!; [done| |done]. apply NoDup_nil_2.
  - intros id data w (Ho & Hc & Hr). split_and!; [|done|done]. by apply jsmap_wf_set.
  - intros id data w (Ho & Hc & Hr). split_and!; [done|done|]. by apply jsmap_wf_set.
  - intros w H. unfold debouncedCheckForChanges, bind, gets, clearTimeout. simpl.
    destruct (timeoutId (this w)); exact H.
Qed.

(** *** At most one timer is pending *)

Lemma filter_all_out (i : nat) (table : list (nat * nat)) :
  Forall (fun tm => Some i = Some (fst tm)) table →
  filter (fun tm => fst tm ≠ i) table = [].
Proof.
  induction 1 as [|tm rest Htm _ IH]; [done|].
  rewrite filter_cons. destruct (decide (fst tm ≠ i)) as [Hne|_]; [|done].
  exfalso. apply Hne. congruence.
Qed.

Lemma debounced_effect (w : World) :
  onePending w →
  timers (host (snd (debouncedCheckForChanges w)))
    = [(nextTimer (host w), clock (host w) + DEBOUNCE_DELAY (this w))]
  ∧ timeoutId (this (snd (debouncedCheckForChanges w))) = Some (nextTimer (host w))
  ∧ nextTimer (host (snd (debouncedCheckForChanges w))) = S (nextTimer (host w))
  ∧ clock (host (snd (debouncedCheckForChanges w))) = clock (host w)
  ∧ DEBOUNCE_DELAY (this (snd (debouncedCheckForChanges w))) = DEBOUNCE_DELAY (this w).
Proof.
  intros Hone. unfold onePending in Hone.
  destruct w as [t h]. unfold debouncedCheckForChanges, bind, gets, clearTimeout. simpl in *.
  destruct (timeoutId t) as [i|] eqn:Ei; simpl.
  - rewrite filter_all_out by done. done.
  - destruct (timers h) as [|tm rest]; [done|].
    apply Forall_cons in Hone as [? _]. done.
Qed.

Lemma scheduledSince_refl (w : World) : onePending w → scheduledSince w w.
Proof. intros H. split_and!; try done. intros ?. lia. Qed.

Lemma scheduledSince_closed (w0 : World) : Closed (scheduledSince w0).
Proof.
  split; try (intros; intros w H; exact H).
  intros w (Hone & Hclock & Hdelay & Hle & _ & _).
  destruct (debounced_effect w Hone) as (Ht & Hid & Hn & Hc & Hd).
  split_and!.
  - unfold onePending. rewrite Ht, Hid. by apply Forall_singleton.
  - congruence.
  - congruence.
  - lia.
  - intros ?. lia.
  - intros _. rewrite Ht, Hc, Hd. eauto.
Qed.

Lemma scheduledSince_onePending (w0 w : World) : scheduledSince w0 w → onePending w.
Proof. by intros (? & _). Qed.

Lemma preserves_onePending {A} (m : M A) :
  (∀ P, Closed P → preserves P m) → preserves onePending m.
Proof.
  intros Hm w Hone. apply (scheduledSince_onePending w).
  apply (Hm _ (scheduledSince_closed w)). by apply scheduledSince_refl.
Qed.

(** *** What [checkForChanges] does *)

Lemma checkForChanges_effect (w : World) :
  fst (checkForChanges w) = hasChanges (this w)
  ∧ this (snd (checkForChanges w)) = this w
  ∧ timers (host (snd (checkForChanges w))) = timers (host w)
  ∧ clock (host (snd (checkForChanges w))) = clock (host w)
  ∧ nextTimer (host (snd (checkForChanges w))) = nextTimer (host w)
  ∧ calls (host (snd (checkForChanges w)))
    = calls (host w) ++
      match onFormChanged (this w) with
      | Some _ => [{| call_hasChanges := hasChanges (this w);
                      call_changes := getChanges (this w);
                      call_event := lastEvent (this w) |}]
      | None => []
      end.
Proof.
  unfold checkForChanges, bind, gets. simpl.
  destruct (onFormChanged (this w)); simpl; [done|].
  by rewrite app_nil_r.
Qed.

Lemma runEach_this (due : list (nat * nat)) (w : World) :
  this (snd (runEach due w)) = this w
  ∧ timers (host (snd (runEach due w))) = timers (host w)
  ∧ clock (host (snd (runEach due w))) = clock (host w)
  ∧ nextTimer (host (snd (runEach due w))) = nextTimer (host w)
  ∧ fst (runEach due w) = map (fun _ => hasChanges (this w)) due.
Proof.
  revert w. induction due as [|tm rest IH]; intros w; simpl; [done|].
  unfold bind.
  destruct (checkForChanges_effect w) as (Hr & Ht & Htm & Hc & Hn & _).
  destruct (checkForChanges w) as [r w1]. simpl in *.
  destruct (IH w1) as (Ht' & Htm' & Hc' & Hn' & Hrs).
  destruct (runEach rest w1) as [rs w2]. simpl in *.
  subst r rs. rewrite Ht. split_and!; congruence.
Qed.

Lemma elapse_effect (ms : nat) (w : World) :
  this (snd (elapse ms w)) = this w
  ∧ clock (host (snd (elapse ms w))) = clock (host w) + ms
  ∧ nextTimer (host (snd (elapse ms w))) = nextTimer (host w)
  ∧ timers (host (snd (elapse ms w)))
    = filter (fun tm => ¬ snd tm ≤ clock (host w) + ms) (timers (host w))
  ∧ fst (elapse ms w)
    = map (fun _ => hasChanges (this w))
          (filter (fun tm => snd tm ≤ clock (host w) + ms) (timers (host w))).
Proof.
  unfold elapse, runTimers, bind, gets, onHost. simpl.
  match goal with |- context [runEach ?due ?w1] =>
    destruct (runEach_this due w1) as (Ht & Htm & Hc & Hn & Hr);
    destruct (runEach due w1) as [rs w2]
  end.
  simpl in *. by split_and!.
Qed.

(** *** Every system that exists is good *)

Lemma good_after {A} (m : M A) (t : FormWatcher) (h : Host) :
  (∀ P, Closed P → preserves P m) →
  wfWorld {| this := t; host := h |} → onePending {| this := t; host := h |} →
  goodSystem (snd (runReady m t h)).
Proof.
  intros Hm Hwf Hone. unfold runReady.
  pose proof (Hm _ wfWorld_closed _ Hwf) as Hwf'.
  pose proof (preserves_onePending m Hm _ Hone) as Hone'.
  destruct (m {| this := t; host := h |}) as [a w']. simpl in *.
  split; assumption.
Qed.

Lemma step_good (i : Input) (s : System) : goodSystem s → goodSystem (fst (step i s)).
Proof.
  unfold goodSystem at 1. destruct s as [[|t] h]; simpl.
  - intros _. destruct i; done.
  - intros [Hwf Hone].
    destruct i as [form e|e|ms|ms| | | |n v]; simpl.
    + unfold dispatch; simpl. destruct (includes (listeners h) "change"); simpl.
      * apply (good_after (onChange form e)); [|done|done].
        intros P HP. by apply preserves_onChange.
      * by split.
    + unfold dispatch; simpl. destruct (includes (listeners h) "input"); simpl.
      * apply (good_after (onInput e)); [|done|done].
        intros P HP. by apply preserves_onInput.
      * by split.
    + destruct (observing h); simpl.
      * apply (good_after (onMutations ms)); [|done|done].
        intros P HP. by apply preserves_onMutations.
      * by split.
    + unfold runReady.
      destruct (elapse_effect ms {| this := t; host := h |}) as (Ht & _ & _ & Htm & _).
      destruct (elapse ms {| this := t; host := h |}) as [rs w']. simpl in *.
      unfold goodSystem; simpl. split.
      * unfold wfWorld; simpl. by rewrite Ht.
      * unfold onePending in *; simpl in *. rewrite Ht, Htm.
        apply Forall_forall. intros tm [_ Hin]%list_elem_of_filter.
        by apply (proj1 (Forall_forall _ _) Hone).
    + unfold callCheckForChanges; simpl.
      pose proof (good_after checkForChanges t h) as Hgood.
      unfold runReady in *.
      destruct (checkForChanges {| this := t; host := h |}) as [b w']. simpl in *.
      apply Hgood; [|done|done]. intros P HP. by apply preserves_checkForChanges.
    + unfold callGetChanges; simpl. by split.
    + unfold callResetState; simpl.
      pose proof (good_after resetState t h) as Hgood.
      unfold runReady in *.
      destruct (resetState {| this := t; host := h |}) as [b w']. simpl in *.
      apply Hgood; [|done|done]. intros P HP. by apply preserves_resetState.
    + by split.
Qed.

Lemma reachable_good (s : System) : reachable s → goodSystem s.
Proof.
  induction 1 as [ds uuids doc target options s Hc|s i _ IH].
  - apply construct_returned in Hc as (form' & _ & ->).
    unfold constructWith. destruct form' as [form|]; [|done].
    set (t0 := {| DEBOUNCE_DELAY := _ |}).
    set (w0 := {| this := t0; host := bootHost ds uuids doc |}).
    assert (Hwf : wfWorld w0) by (split_and!; apply NoDup_nil_2).
    assert (Hone : onePending w0) by apply Forall_nil_2.
    pose proof (preserves_constructor _ wfWorld_closed form _ Hwf) as Hwf'.
    pose proof (preserves_onePending _
                  (fun P HP => preserves_constructor P HP form) _ Hone) as Hone'.
    unfold goodSystem. simpl. split; assumption.
  - by apply step_good.
Qed.

(** ** [resetState] followed by [checkForChanges] *)

Lemma jsmap_set_elem {V} (m : JSMap.t V) k0 v0 k v :
  (k, v) ∈ JSMap.set m k0 v0 → (k, v) ∈ m ∨ (k = k0 ∧ v = v0).
Proof.
  induction m as [|[k' v'] m IH]; simpl.
  - intros [= -> ->]%list_elem_of_singleton. by right.
  - destruct (String.eqb_spec k' k0) as [->|Hne].
    + intros [[= -> ->]|Hin]%elem_of_cons; [by right|].
      left. apply elem_of_cons; by right.
    + intros [Heq|Hin]%elem_of_cons.
      * left. apply elem_of_cons; by left.
      * destruct (IH Hin) as [?|?]; [|by right]. left. apply elem_of_cons; by right.
Qed.

Lemma jsmap_has_set {V} (m : JSMap.t V) k0 v0 k :
  JSMap.has (JSMap.set m k0 v0) k = JSMap.has m k || String.eqb k0 k.
Proof.
  unfold JSMap.has. destruct (String.eqb_spec k0 k) as [->|Hne].
  - rewrite jsmap_get_set_eq. by rewrite orb_true_r.
  - rewrite jsmap_get_set_ne by done. by rewrite orb_false_r.
Qed.

Lemma copyEntries_elem entries a acc id d :
  (id, d) ∈ copyEntries entries a acc →
  (id, d) ∈ acc ∨ ∃ a' data, a ≤ a' ∧ (id, data) ∈ entries ∧ d = spread a' data.
Proof.
  revert a acc. induction entries as [|[id0 data0] rest IH]; intros a acc; simpl; [auto|].
  intros [[Hin|[ -> -> ]]%jsmap_set_elem|(a' & data & Hle & Hin & ->)]%IH.
  - by left.
  - right. exists a, data0. split_and!; [lia|apply elem_of_cons; by left|done].
  - right. exists a', data. split_and!; [lia|apply elem_of_cons; by right|done].
Qed.

Lemma copyEntries_has entries a acc id :
  JSMap.has acc id = true ∨ id ∈ JSMap.keys entries →
  JSMap.has (copyEntries entries a acc) id = true.
Proof.
  revert a acc. induction entries as [|[id0 data0] rest IH]; intros a acc; simpl.
  - intros [?|?%elem_of_nil]; done.
  - intros H. apply IH. rewrite jsmap_has_set.
    destruct H as [->|[->|?]%elem_of_cons]; [by left| |by right].
    left. by rewrite String.eqb_refl, orb_true_r.
Qed.

Lemma scanCurrent_false (t : FormWatcher) entries :
  (∀ id d, (id, d) ∈ entries →
           ∃ od, JSMap.get (originalState t) id = Some od ∧ snapshotDiffers od d = false) →
  scanCurrent t entries = false.
Proof.
  induction entries as [|[id d] rest IH]; simpl; [done|]. intros H.
  destruct (H id d) as (od & -> & ->); [apply elem_of_cons; by left|].
  apply IH. intros id' d' ?. apply H. apply elem_of_cons; by right.
Qed.

Lemma scanOriginal_false (t : FormWatcher) ids :
  (∀ id, id ∈ ids → JSMap.has (currentState t) id = true) →
  scanOriginal t ids = false.
Proof.
  induction ids as [|id rest IH]; simpl; [done|]. intros H.
  rewrite (H id) by (apply elem_of_cons; by left). simpl.
  apply IH. intros id' ?. apply H. apply elem_of_cons; by right.
Qed.

Lemma debounced_maps (w : World) :
  originalState (this (snd (debouncedCheckForChanges w))) = originalState (this w)
  ∧ currentState (this (snd (debouncedCheckForChanges w))) = currentState (this w)
  ∧ removedFields (this (snd (debouncedCheckForChanges w))) = removedFields (this w)
  ∧ lastEvent (this (snd (debouncedCheckForChanges w))) = lastEvent (this w)
  ∧ onFormChanged (this (snd (debouncedCheckForChanges w))) = onFormChanged (this w)
  ∧ calls (host (snd (debouncedCheckForChanges w))) = calls (host w).
Proof.
  unfold debouncedCheckForChanges, bind, gets, clearTimeout. simpl.
  by destruct (timeoutId (this w)).
Qed.

Lemma reset_loop (entries : list (string * FieldState)) (w : World) :
  originalState (this (snd (forEach entries copyEntry w))) = originalState (this w)
  ∧ removedFields (this (snd (forEach entries copyEntry w))) = removedFields (this w)
  ∧ currentState (this (snd (forEach entries copyEntry w)))
    = copyEntries entries (nextAddr (host w)) (currentState (this w)).
Proof.
  revert w. induction entries as [|[id data] rest IH]; intros w; simpl; [done|].
  unfold bind at 1 3 5. simpl.
  match goal with |- context [forEach rest copyEntry ?w1] =>
    destruct (IH w1) as (Ho & Hr & Hc) end.
  simpl in *. by split_and!.
Qed.

Lemma resetState_unfold (w : World) :
  resetState w =
  debouncedCheckForChanges
    (snd (forEach (originalState (this w)) copyEntry
            {| this := setCurrentState JSMap.empty (this w); host := host w |})).
Proof.
  unfold resetState, bind, onThis, gets. simpl.
  by destruct (forEach _ _ _) as [[] w2].
Qed.

Lemma resetState_effect (w : World) :
  originalState (this (snd (resetState w))) = originalState (this w)
  ∧ removedFields (this (snd (resetState w))) = removedFields (this w)
  ∧ currentState (this (snd (resetState w)))
    = copyEntries (originalState (this w)) (nextAddr (host w)) JSMap.empty.
Proof.
  rewrite resetState_unfold.
  destruct (reset_loop (originalState (this w))
              {| this := setCurrentState JSMap.empty (this w); host := host w |})
    as (Ho & Hr & Hc).
  destruct (debounced_maps
              (snd (forEach (originalState (this w)) copyEntry
                      {| this := setCurrentState JSMap.empty (this w); host := host w |})))
    as (Ho' & Hc' & Hr' & _).
  simpl in *. split_and!; congruence.
Qed.

Lemma hasChanges_after_reset (w : World) :
  JSMap.wf (originalState (this w)) → hasChanges (this (snd (resetState w))) = false.
Proof.
  intros Hwf. destruct (resetState_effect w) as (Ho & _ & Hc).
  unfold hasChanges. rewrite scanCurrent_false.
  - apply scanOriginal_false. intros id Hid. rewrite Hc. apply copyEntries_has.
    right. by rewrite <- Ho.
  - intros id d Hin. rewrite Hc in Hin.
    apply copyEntries_elem in Hin as [?%elem_of_nil|(a' & data & _ & Hin & ->)]; [done|].
    exists data. rewrite Ho. split; [by apply jsmap_elem_get|].
    apply snapshotDiffers_spread.
Qed.

(** What [resetState] does to the maps: the baseline and the removed fields
    stay, and every live entry is a new object that copies a baseline entry
    with the same id. *)
Lemma resetState_copies_baseline (w : World) :
  originalState (this (snd (resetState w))) = originalState (this w)
  ∧ removedFields (this (snd (resetState w))) = removedFields (this w)
  ∧ JSMap.keys (currentState (this (snd (resetState w)))) ⊆ JSMap.keys (originalState (this w))
  ∧ ∀ id d, (id, d) ∈ currentState (this (snd (resetState w))) →
            nextAddr (host w) ≤ addr d
            ∧ ∃ data, (id, data) ∈ originalState (this w)
                      ∧ field d = field data ∧ value d = value data
                      ∧ checked d = checked data.
Proof.
  destruct (resetState_effect w) as (Ho & Hr & Hc).
  assert (Hall : ∀ id d, (id, d) ∈ currentState (this (snd (resetState w))) →
            nextAddr (host w) ≤ addr d
            ∧ ∃ data, (id, data) ∈ originalState (this w)
                      ∧ field d = field data ∧ value d = value data
                      ∧ checked d = checked data).
  { intros id d Hin. rewrite Hc in Hin.
    apply copyEntries_elem in Hin as [?%elem_of_nil|(a' & data & Hle & Hin & ->)]; [done|].
    split; [done|]. by exists data. }
  split_and!; [done|done| |done].
  intros id Hid. unfold JSMap.keys in Hid.
  apply list_elem_of_fmap in Hid as ([id' d] & -> & Hin).
  destruct (Hall id' d Hin) as (_ & data & Hdata & _). simpl.
  change id' with (fst (id', data)). by apply list_elem_of_fmap_2.
Qed.

(** C6. For every system that exists and whose instance is initialised,
    [resetState()] followed at once by [checkForChanges()] returns
    [false]. *)
Theorem reset_then_check (s : System) (t : FormWatcher) :
  reachable s → inst s = Ready t →
  snd (step CallCheckForChanges (fst (step CallResetState s))) = [ReturnedBool false].
Proof.
  intros Hreach Hinst. apply reachable_good in Hreach. unfold goodSystem in Hreach.
  rewrite Hinst in Hreach. destruct Hreach as [(Hwf & _ & _) _].
  simpl. unfold callResetState. rewrite Hinst. unfold runReady.
  pose proof (hasChanges_after_reset {| this := t; host := env s |} Hwf) as Hfalse.
  destruct (resetState {| this := t; host := env s |}) as [[] w1]. simpl in *.
  unfold callCheckForChanges. simpl. unfold runReady.
  destruct (checkForChanges_effect {| this := this w1; host := host w1 |}) as (Hr & _).
  destruct (checkForChanges {| this := this w1; host := host w1 |}) as [b w2]. simpl in *.
  congruence.
Qed.

Lemma reset_then_check_witness :
  snd (step CallCheckForChanges (fst (step CallResetState typedB))) = [ReturnedBool false].
Proof.
  apply (reset_then_check typedB (watcherOf typedB)).
  - exact (reach_step _ _ (reachable_constructWith _ _ _ _ _)).
  - vm_compute. reflexivity.
Defined.

(** ** Structural removal *)

Lemma onRemovedField_unfold (f : Element) (w : World) (data : FieldState) :
  isExcluded (this w) (host w) f = false →
  getFieldId (host w) f ≠ "" →
  JSMap.get (currentState (this w)) (getFieldId (host w) f) = Some data →
  onRemovedField f w =
  debouncedCheckForChanges
    {| this :=
         setCurrentState (JSMap.delete (currentState (this w)) (getFieldId (host w) f))
           (setRemovedFields
              (JSMap.set (removedFields (this w)) (getFieldId (host w) f) data) (this w));
       host := host w |}.
Proof.
  intros Hex Hid Hget.
  cbv [onRemovedField isExcludedM bind gets onThis JSMap.has]. simpl.
  rewrite Hex. apply String.eqb_neq in Hid as ->. rewrite Hget. done.
Qed.

Lemma onRemovedField_moved (f : Element) (w : World) (data : FieldState) :
  isExcluded (this w) (host w) f = false →
  getFieldId (host w) f ≠ "" →
  JSMap.get (currentState (this w)) (getFieldId (host w) f) = Some data →
  removedFields (this (snd (onRemovedField f w)))
    = JSMap.set (removedFields (this w)) (getFieldId (host w) f) data
  ∧ currentState (this (snd (onRemovedField f w)))
    = JSMap.delete (currentState (this w)) (getFieldId (host w) f)
  ∧ originalState (this (snd (onRemovedField f w))) = originalState (this w).
Proof.
  intros Hex Hid Hget. rewrite (onRemovedField_unfold f w data) by done.
  match goal with |- context [debouncedCheckForChanges ?w1] =>
    destruct (debounced_maps w1) as (Ho & Hc & Hr & _) end.
  simpl in *. by split_and!.
Qed.

Lemma onRemovedField_skipped (f : Element) (w : World) :
  isExcluded (this w) (host w) f = true
  ∨ getFieldId (host w) f = ""
  ∨ JSMap.has (currentState (this w)) (getFieldId (host w) f) = false →
  onRemovedField f w = (tt, w).
Proof.
  intros H.
  cbv [onRemovedField isExcludedM bind gets onThis ret]. simpl.
  destruct (isExcluded (this w) (host w) f); [done|].
  destruct H as [?|[ -> | -> ]]; [done|done|].
  by rewrite andb_false_r.
Qed.

(** C10. The handler of a removed field writes [removedFields] only when
    the field is not excluded, its id is not empty and [currentState] has the
    id: the snapshot found there is then stored in [removedFields] under the
    same id and the id leaves [currentState]. When the id is empty or not in
    [currentState] (or the field is excluded) nothing changes at all. Hence
    an entry of [removedFields] after the handler was there before, or was
    the entry of [currentState] for the removed field's id. *)
Theorem removal_moves_live_snapshot (f : Element) (w : World) :
  (∀ data,
     isExcluded (this w) (host w) f = false →
     getFieldId (host w) f ≠ "" →
     JSMap.get (currentState (this w)) (getFieldId (host w) f) = Some data →
     removedFields (this (snd (onRemovedField f w)))
       = JSMap.set (removedFields (this w)) (getFieldId (host w) f) data
     ∧ currentState (this (snd (onRemovedField f w)))
       = JSMap.delete (currentState (this w)) (getFieldId (host w) f))
  ∧ (isExcluded (this w) (host w) f = true
     ∨ getFieldId (host w) f = ""
     ∨ JSMap.has (currentState (this w)) (getFieldId (host w) f) = false →
     onRemovedField f w = (tt, w))
  ∧ (∀ id snap,
       JSMap.get (removedFields (this (snd (onRemovedField f w)))) id = Some snap →
       JSMap.get (removedFields (this w)) id = Some snap
       ∨ (id = getFieldId (host w) f ∧ id ≠ ""
          ∧ JSMap.get (currentState (this w)) id = Some snap)).
Proof.
  split_and!.
  - intros data Hex Hid Hget.
    destruct (onRemovedField_moved f w data Hex Hid Hget) as (? & ? & _). by split.
  - apply onRemovedField_skipped.
  - intros id snap Hsnap.
    destruct (isExcluded (this w) (host w) f) eqn:Hex;
      [rewrite onRemovedField_skipped in Hsnap by auto; by left|].
    destruct (String.eqb_spec (getFieldId (host w) f) "") as [Hid|Hid];
      [rewrite onRemovedField_skipped in Hsnap by auto; by left|].
    destruct (JSMap.get (currentState (this w)) (getFieldId (host w) f)) as [data|] eqn:Hget.
    + destruct (onRemovedField_moved f w data Hex Hid Hget) as (Hr & _ & _).
      rewrite Hr in Hsnap.
      destruct (String.eqb_spec (getFieldId (host w) f) id) as [<-|Hne].
      * rewrite jsmap_get_set_eq in Hsnap. injection Hsnap as <-. right. by split_and!.
      * rewrite jsmap_get_set_ne in Hsnap by done. by left.
    + apply jsmap_has_false in Hget.
      rewrite onRemovedField_skipped in Hsnap by auto. by left.
Qed.

(** ** Debounce *)

Lemma runEach_calls (due : list (nat * nat)) (w : World) :
  calls (host (snd (runEach due w)))
  = calls (host w) ++ flat_map (fun _ => notification (this w)) due.
Proof.
  revert w. induction due as [|tm rest IH]; intros w; simpl.
  - by rewrite app_nil_r.
  - unfold bind.
    destruct (checkForChanges_effect w) as (_ & Ht & _ & _ & _ & Hcalls).
    destruct (checkForChanges w) as [r w1]. simpl in *.
    specialize (IH w1). destruct (runEach rest w1) as [rs w2]. simpl in *.
    rewrite IH, Hcalls, Ht. unfold notification. by rewrite <- app_assoc.
Qed.

Lemma elapse_calls (ms : nat) (w : World) :
  calls (host (snd (elapse ms w)))
  = calls (host w) ++
    flat_map (fun _ => notification (this w))
      (filter (fun tm => snd tm ≤ clock (host w) + ms) (timers (host w))).
Proof.
  unfold elapse, runTimers, bind, gets, onHost. simpl.
  match goal with |- context [runEach ?due ?w1] => rewrite (runEach_calls due w1) end.
  done.
Qed.

Lemma step_elapse (s : System) (t : FormWatcher) (ms : nat) :
  inst s = Ready t →
  inst (fst (step (Elapse ms) s)) = Ready t
  ∧ clock (env (fst (step (Elapse ms) s))) = clock (env s) + ms
  ∧ nextTimer (env (fst (step (Elapse ms) s))) = nextTimer (env s)
  ∧ timers (env (fst (step (Elapse ms) s)))
    = filter (fun tm => ¬ snd tm ≤ clock (env s) + ms) (timers (env s))
  ∧ snd (step (Elapse ms) s)
    = map (fun _ => TimerRan (hasChanges t))
          (filter (fun tm => snd tm ≤ clock (env s) + ms) (timers (env s)))
  ∧ calls (env (fst (step (Elapse ms) s)))
    = calls (env s) ++
      flat_map (fun _ => notification t)
        (filter (fun tm => snd tm ≤ clock (env s) + ms) (timers (env s))).
Proof.
  intros Hinst. simpl. rewrite Hinst. unfold runReady.
  destruct (elapse_effect ms {| this := t; host := env s |}) as (Ht & Hc & Hn & Htm & Hr).
  pose proof (elapse_calls ms {| this := t; host := env s |}) as Hcalls.
  destruct (elapse ms {| this := t; host := env s |}) as [rs w']. simpl in *.
  rewrite Ht, Hr, map_map. by split_and!.
Qed.

(** An input other than the passing of time leaves the clock and the delay
    as they are, and either sets no timer and leaves the table as it is, or
    leaves one timer in the table, due one delay from now. *)
Lemma step_scheduled (i : Input) (s : System) (t : FormWatcher) :
  inst s = Ready t → onePending {| this := t; host := env s |} →
  (∀ ms, i ≠ Elapse ms) →
  ∃ t1, inst (fst (step i s)) = Ready t1
        ∧ scheduledSince {| this := t; host := env s |}
            {| this := t1; host := env (fst (step i s)) |}.
Proof.
  intros Hinst Hone Hi. destruct s as [i0 h]. simpl in Hinst, Hone. subst i0.
  assert (Hrefl := scheduledSince_refl _ Hone).
  assert (Hrun : ∀ m : M unit, (∀ P, Closed P → preserves P m) →
            ∃ t1, inst (snd (runReady m t h)) = Ready t1
                  ∧ scheduledSince {| this := t; host := h |}
                      {| this := t1; host := env (snd (runReady m t h)) |}).
  { intros m Hm. unfold runReady.
    pose proof (Hm _ (scheduledSince_closed {| this := t; host := h |}) _ Hrefl) as Hs.
    destruct (m {| this := t; host := h |}) as [[] w1]. simpl in *. eauto. }
  destruct i as [form e|e|ms'|ms'| | | |n v]; simpl.
  - unfold dispatch; simpl. destruct (includes (listeners h) "change"); simpl; [|eauto].
    apply Hrun. intros P HP. by apply preserves_onChange.
  - unfold dispatch; simpl. destruct (includes (listeners h) "input"); simpl; [|eauto].
    apply Hrun. intros P HP. by apply preserves_onInput.
  - destruct (observing h); simpl; [|eauto].
    apply Hrun. intros P HP. by apply preserves_onMutations.
  - by destruct (Hi ms').
  - unfold callCheckForChanges, runReady; simpl.
    pose proof (preserves_checkForChanges _ (scheduledSince_closed {| this := t; host := h |})
                  _ Hrefl) as Hs.
    destruct (checkForChanges {| this := t; host := h |}) as [b w1]. simpl in *. eauto.
  - unfold callGetChanges; simpl. eauto.
  - unfold callResetState, runReady; simpl.
    pose proof (preserves_resetState _ (scheduledSince_closed {| this := t; host := h |})
                  _ Hrefl) as Hs.
    destruct (resetState {| this := t; host := h |}) as [b w1]. simpl in *. eauto.
  - exists t. split; [done|]. exact Hrefl.
Qed.





Lemma run_cons (i : Input) (rest : list Input) (s : System) :
  fst (run (i :: rest) s) = fst (run rest (fst (step i s)))
  ∧ snd (run (i :: rest) s) = snd (step i s) ++ snd (run rest (fst (step i s))).
Proof. simpl. destruct (step i s) as [s1 out1]. simpl. by destruct (run rest s1). Qed.





(** *** Nothing else writes [removedFields] *)

Section RemovedFrame.
Variable R : JSMap.t FieldState.

Ltac framing :=
  repeat match goal with
    | |- preserves _ (ret _) => apply preserves_ret
    | |- preserves _ (gets _) => apply preserves_gets
    | |- preserves _ (forEach _ _) => apply preserves_forEach; intros ?
    | |- preserves _ (bind _ _) => apply preserves_bind; [|intros ?]
    | |- preserves _ debouncedCheckForChanges =>
        let w := fresh "w" in let H := fresh "H" in
        intros w H; unfold keepsRemoved;
        destruct (debounced_maps w) as (_ & _ & -> & _); exact H
    | |- preserves _ (if ?b then _ else _) => destruct b
    | |- preserves _ (match ?x with _ => _ end) => destruct x
    | |- preserves _ _ => let w := fresh "w" in let H := fresh "H" in intros w H; exact H
    end.

Lemma updateCurrentState_keeps_removed f : preserves (keepsRemoved R) (updateCurrentState f).
Proof. unfold updateCurrentState, getOrSetFieldID, formatFieldState. framing. Qed.

Lemma onAddedField_keeps_removed f : preserves (keepsRemoved R) (onAddedField f).
Proof.
  unfold onAddedField, isExcludedM.
  apply preserves_bind; [apply preserves_gets|intros []]; [apply preserves_ret|].
  apply updateCurrentState_keeps_removed.
Qed.

Lemma onChange_keeps_removed form e : preserves (keepsRemoved R) (onChange form e).
Proof.
  unfold onChange, isExcludedM.
  apply preserves_bind; [apply preserves_gets|intros excluded].
  destruct (_ && _); [|apply preserves_ret].
  apply preserves_bind; [by intros w H|intros _].
  destruct (_ && _).
  - apply preserves_forEach; intros f. apply updateCurrentState_keeps_removed.
  - apply updateCurrentState_keeps_removed.
Qed.

Lemma onInput_keeps_removed e : preserves (keepsRemoved R) (onInput e).
Proof.
  unfold onInput, isExcludedM.
  apply preserves_bind; [apply preserves_gets|intros excluded].
  destruct (_ && _); [|apply preserves_ret].
  apply preserves_bind; [by intros w H|intros _].
  apply updateCurrentState_keeps_removed.
Qed.

End RemovedFrame.

(** Events, timers and the public methods leave [removedFields] as it is:
    only the mutation observer writes it, through [onRemovedField]. *)
Lemma removedFields_written_by_observer_only (i : Input) (s : System) :
  (∀ mutations, i ≠ EvMutations mutations) →
  removedFields (watcherOf (fst (step i s))) = removedFields (watcherOf s).
Proof.
  intros Hi. destruct s as [[|t] h].
  { destruct i; try done. }
  destruct i as [form e|e|ms|ms| | | |n v]; simpl.
  - unfold dispatch; simpl. destruct (includes _ _); [|done]. unfold runReady.
    pose proof (onChange_keeps_removed (removedFields t) form e
                  {| this := t; host := h |} eq_refl) as H.
    by destruct (onChange form e _).
  - unfold dispatch; simpl. destruct (includes _ _); [|done]. unfold runReady.
    pose proof (onInput_keeps_removed (removedFields t) e
                  {| this := t; host := h |} eq_refl) as H.
    by destruct (onInput e _).
  - by destruct (Hi ms).
  - unfold runReady.
    destruct (elapse_effect ms {| this := t; host := h |}) as (Ht & _).
    destruct (elapse ms _). simpl in *. unfold watcherOf. simpl. by rewrite Ht.
  - unfold callCheckForChanges, runReady; simpl.
    destruct (checkForChanges_effect {| this := t; host := h |}) as (_ & Ht & _).
    destruct (checkForChanges _). simpl in *. unfold watcherOf. simpl. by rewrite Ht.
  - done.
  - unfold callResetState, runReady; simpl.
    destruct (resetState_effect {| this := t; host := h |}) as (_ & Hr & _).
    by destruct (resetState _).
  - done.
Qed.

(** * Further properties of the class *)

(** ** What the handlers leave alone *)

Section Keeping.
Context (P : World → Prop) (HP : Kept P).

Ltac keeping :=
  repeat match goal with
    | |- preserves _ (ret _) => apply preserves_ret
    | |- preserves _ (gets _) => apply preserves_gets
    | |- preserves _ (forEach _ _) => apply preserves_forEach; intros ?
    | |- preserves _ (bind _ _) => apply preserves_bind; [|intros ?]
    | |- preserves _ (onThis (setCurrentState JSMap.empty)) =>
        apply (kept_current_clear P HP)
    | |- preserves _ (onThis (setLastEvent _)) => apply (kept_lastEvent P HP)
    | |- preserves _ (onThis _) =>
        first [ apply (kept_current_set P HP)
              | apply (kept_current_delete P HP)
              | apply (kept_removed_set P HP) ]
    | |- preserves _ newObject => apply (kept_newObject P HP)
    | |- preserves _ randomUUID => apply (kept_randomUUID P HP)
    | |- preserves _ (setFormWatcherId _ _) => apply (kept_setFormWatcherId P HP)
    | |- preserves _ debouncedCheckForChanges => apply (kept_debounced P HP)
    | |- preserves _ (if ?b then _ else _) => destruct b
    | |- preserves _ (match ?x with _ => _ end) => destruct x
    end.

Lemma kept_updateCurrentState f : preserves P (updateCurrentState f).
Proof. unfold updateCurrentState, getOrSetFieldID, formatFieldState. keeping. Qed.

Lemma kept_onChange form e : preserves P (onChange form e).
Proof.
  unfold onChange, isExcludedM.
  apply preserves_bind; [apply preserves_gets|intros excluded].
  destruct (_ && _); [|apply preserves_ret].
  apply preserves_bind; [apply (kept_lastEvent P HP)|intros _].
  destruct (_ && _).
  - apply preserves_forEach; intros f. apply kept_updateCurrentState.
  - apply kept_updateCurrentState.
Qed.

Lemma kept_onInput e : preserves P (onInput e).
Proof.
  unfold onInput, isExcludedM.
  apply preserves_bind; [apply preserves_gets|intros excluded].
  destruct (_ && _); [|apply preserves_ret].
  apply preserves_bind; [apply (kept_lastEvent P HP)|intros _].
  apply kept_updateCurrentState.
Qed.

Lemma kept_onAddedField f : preserves P (onAddedField f).
Proof.
  unfold onAddedField, isExcludedM.
  apply preserves_bind; [apply preserves_gets|intros []]; [apply preserves_ret|].
  apply kept_updateCurrentState.
Qed.

Lemma kept_onRemovedField f : preserves P (onRemovedField f).
Proof. unfold onRemovedField, isExcludedM. keeping. Qed.

Lemma kept_onMutations mutations : preserves P (onMutations mutations).
Proof.
  unfold onMutations.
  apply preserves_forEach; intros mutation.
  apply preserves_bind; [|intros _].
  - apply preserves_forEach; intros n. apply preserves_forEach; intros f.
    apply kept_onAddedField.
  - apply preserves_forEach; intros n. apply preserves_forEach; intros f.
    apply kept_onRemovedField.
Qed.

Lemma kept_resetState : preserves P resetState.
Proof. unfold resetState, copyEntry. keeping. Qed.

End Keeping.

Lemma debounced_this (w : World) :
  this (snd (debouncedCheckForChanges w)) = setTimeoutId (Some (nextTimer (host w))) (this w).
Proof.
  unfold debouncedCheckForChanges, bind, gets, clearTimeout. simpl.
  by destruct (timeoutId (this w)).
Qed.

Lemma steady_kept (Q : FormWatcher → Prop) : Steady Q → Kept (fun w => Q (this w)).
Proof.
  intros HQ. split; try (intros; intros w H; exact H).
  - intros id data w H. by apply (steady_current Q HQ).
  - intros id w H. by apply (steady_current Q HQ).
  - intros w H. by apply (steady_current Q HQ).
  - intros id data w H. by apply (steady_removed Q HQ).
  - intros e w H. by apply (steady_lastEvent Q HQ).
  - intros w H. rewrite debounced_this. by apply (steady_timeoutId Q HQ).
Qed.

Lemma kept_runReady (P : World → Prop) (m : M unit) (t : FormWatcher) (h : Host) :
  preserves P m → P {| this := t; host := h |} →
  P {| this := watcherOf (snd (runReady m t h)); host := env (snd (runReady m t h)) |}.
Proof.
  intros Hm H. unfold runReady. specialize (Hm _ H).
  destruct (m {| this := t; host := h |}) as [[] [t' h']]. exact Hm.
Qed.

Lemma step_steady (Q : FormWatcher → Prop) (i : Input) (s : System) :
  Steady Q → Q (watcherOf s) → Q (watcherOf (fst (step i s))).
Proof.
  intros HQ. pose proof (steady_kept Q HQ) as HK. destruct s as [[|t] h].
  { destruct i; try done. }
  unfold watcherOf at 1. simpl. intros H.
  destruct i as [form e|e|ms|ms| | | |n v]; simpl.
  - unfold dispatch; simpl. destruct (includes _ _); [|done].
    apply (kept_runReady (fun w => Q (this w))); [|done]. by apply kept_onChange.
  - unfold dispatch; simpl. destruct (includes _ _); [|done].
    apply (kept_runReady (fun w => Q (this w))); [|done]. by apply kept_onInput.
  - destruct (observing h); [|done].
    apply (kept_runReady (fun w => Q (this w))); [|done]. by apply kept_onMutations.
  - unfold runReady.
    destruct (elapse_effect ms {| this := t; host := h |}) as (Ht & _).
    destruct (elapse ms _). simpl in *. unfold watcherOf. simpl. by rewrite Ht.
  - unfold callCheckForChanges, runReady; simpl.
    destruct (checkForChanges_effect {| this := t; host := h |}) as (_ & Ht & _).
    destruct (checkForChanges _). simpl in *. unfold watcherOf. simpl. by rewrite Ht.
  - done.
  - unfold callResetState; simpl.
    pose proof (kept_runReady (fun w => Q (this w)) resetState t h
                  (kept_resetState _ HK) H) as H'.
    unfold runReady in *. by destruct (resetState _).
  - done.
Qed.

Lemma run_steady (Q : FormWatcher → Prop) (inputs : list Input) (s : System) :
  Steady Q → Q (watcherOf s) → Q (watcherOf (fst (run inputs s))).
Proof.
  intros HQ. revert s. induction inputs as [|i rest IH]; intros s H; [done|].
  destruct (run_cons i rest s) as [-> _]. apply IH. by apply step_steady.
Qed.

(** X1. Whatever the inputs, the baseline and the configuration of an
    instance stay what the constructor made them: no event, mutation, timer
    or public method (not even [resetState]) writes [originalState],
    [DEBOUNCE_DELAY], [excludeSelectors] or [onFormChanged]. *)
Theorem baseline_and_configuration_fixed (inputs : list Input) (s : System) :
  originalState (watcherOf (fst (run inputs s))) = originalState (watcherOf s)
  ∧ DEBOUNCE_DELAY (watcherOf (fst (run inputs s))) = DEBOUNCE_DELAY (watcherOf s)
  ∧ excludeSelectors (watcherOf (fst (run inputs s))) = excludeSelectors (watcherOf s)
  ∧ onFormChanged (watcherOf (fst (run inputs s))) = onFormChanged (watcherOf s).
Proof.
  apply (run_steady
           (fun t => originalState t = originalState (watcherOf s)
                     ∧ DEBOUNCE_DELAY t = DEBOUNCE_DELAY (watcherOf s)
                     ∧ excludeSelectors t = excludeSelectors (watcherOf s)
                     ∧ onFormChanged t = onFormChanged (watcherOf s))); [|done].
  split; intros; done.
Qed.

(** X2. The history of removed fields is never evicted: an id that
    [removedFields] holds is still there after any inputs. *)
Theorem removedFields_only_grows (inputs : list Input) (s : System) (id : string) :
  JSMap.has (removedFields (watcherOf s)) id = true →
  JSMap.has (removedFields (watcherOf (fst (run inputs s)))) id = true.
Proof.
  apply (run_steady (fun t => JSMap.has (removedFields t) id = true)).
  split; intros; try done.
  simpl. rewrite jsmap_has_set. by rewrite H.
Qed.

Lemma removedFields_only_grows_witness :
  JSMap.has
    (removedFields
       (watcherOf (fst (run [CallResetState; Elapse 300; removal (textInput 1 "x" "A")]
                          readdedSame)))) "y" = true.
Proof.
  apply (removedFields_only_grows
           [CallResetState; Elapse 300; removal (textInput 1 "x" "A")] readdedSame "y").
  vm_compute. reflexivity.
Defined.

(** ** Calls of the user's function *)

Lemma callsAre_kept (log : list Call) : Kept (callsAre log).
Proof.
  split; try (intros; intros w H; exact H).
  intros w H. unfold callsAre.
  destruct (debounced_maps w) as (_ & _ & _ & _ & _ & ->). exact H.
Qed.

Lemma step_calls_unchanged (i : Input) (s : System) :
  (∀ ms, i ≠ Elapse ms) → i ≠ CallCheckForChanges →
  calls (env (fst (step i s))) = calls (env s).
Proof.
  intros Hi Hc. destruct s as [[|t] h].
  { destruct i; done. }
  pose proof (callsAre_kept (calls h)) as HK.
  destruct i as [form e|e|ms|ms| | | |n v]; simpl; try done.
  - unfold dispatch; simpl. destruct (includes _ _); [|done].
    apply (kept_runReady (callsAre (calls h))); [|done]. by apply kept_onChange.
  - unfold dispatch; simpl. destruct (includes _ _); [|done].
    apply (kept_runReady (callsAre (calls h))); [|done]. by apply kept_onInput.
  - destruct (observing h); [|done].
    apply (kept_runReady (callsAre (calls h))); [|done]. by apply kept_onMutations.
  - by destruct (Hi ms).
  - unfold callResetState; simpl.
    pose proof (kept_runReady (callsAre (calls h)) resetState t h
                  (kept_resetState _ HK) eq_refl) as H'.
    unfold runReady in *. by destruct (resetState _).
Qed.

(** X3. The user's function is never called from inside a listener, the
    mutation observer, [getChanges] or [resetState]: only a timer that runs
    and a direct call of [checkForChanges] can call it. *)
Theorem user_called_only_by_diff (i : Input) (s : System) :
  (∀ ms, i ≠ Elapse ms) → i ≠ CallCheckForChanges →
  calls (env (fst (step i s))) = calls (env s).
Proof. apply step_calls_unchanged. Qed.

Lemma user_called_only_by_diff_witness :
  calls (env (fst (step (insertion (textInput 2 "y" "v")) typedB))) = calls (env typedB).
Proof.
  apply (user_called_only_by_diff (insertion (textInput 2 "y" "v")) typedB); done.
Defined.

Lemma step_without_callback (i : Input) (s : System) :
  onFormChanged (watcherOf s) = None →
  calls (env (fst (step i s))) = calls (env s).
Proof.
  intros Hnone.
  destruct i as [form e|e|ms|ms| | | |n v];
    try (apply step_calls_unchanged; [intros ?; done|done]).
  - destruct s as [[|t] h]; [done|].
    destruct (step_elapse {| inst := Ready t; env := h |} t ms eq_refl)
      as (_ & _ & _ & _ & _ & Hcalls).
    rewrite Hcalls. simpl.
    unfold watcherOf in Hnone. simpl in Hnone. unfold notification. rewrite Hnone.
    generalize (filter (λ tm : nat * nat, tm.2 ≤ clock h + ms) (timers h)).
    intros due. induction due as [|tm rest IH]; simpl; [by rewrite app_nil_r|done].
  - destruct s as [[|t] h]; [done|]. simpl. unfold callCheckForChanges, runReady. simpl.
    destruct (checkForChanges_effect {| this := t; host := h |}) as (_ & _ & _ & _ & _ & Hcalls).
    destruct (checkForChanges _). simpl in *.
    unfold watcherOf in Hnone. simpl in Hnone. rewrite Hnone in Hcalls.
    by rewrite app_nil_r in Hcalls.
Qed.

(** X4. An instance constructed without a callable [onFormChanged] never
    calls user code, whatever happens to it. *)
Theorem no_callback_no_call (inputs : list Input) (s : System) :
  onFormChanged (watcherOf s) = None →
  calls (env (fst (run inputs s))) = calls (env s).
Proof.
  revert s. induction inputs as [|i rest IH]; intros s Hnone; [done|].
  destruct (run_cons i rest s) as [-> _].
  rewrite IH.
  - by apply step_without_callback.
  - apply (step_steady (fun t => onFormChanged t = None)); [|done].
    split; intros; done.
Qed.

Lemma no_callback_no_call_witness :
  calls (env (fst (run [EvInput typesB; Elapse 300; CallCheckForChanges; CallResetState;
                        Elapse 1000]
                     (constructWith (Some (formWith [textInput 1 "x" "A"]))
                        noOptions (bootHost ∅ noUuid noMatch)))))
  = calls (env (constructWith (Some (formWith [textInput 1 "x" "A"]))
                  noOptions (bootHost ∅ noUuid noMatch))).
Proof.
  apply (no_callback_no_call
           [EvInput typesB; Elapse 300; CallCheckForChanges; CallResetState; Elapse 1000]).
  vm_compute. reflexivity.
Defined.

(** ** [checkForChanges] reads *)

(** X5. [checkForChanges] leaves the instance, the clock and the timers as
    they are, so a second call right after the first returns the same
    answer: [hasChanges] of the instance. *)
Theorem checkForChanges_idempotent (s : System) :
  inst (fst (step CallCheckForChanges s)) = inst s
  ∧ timers (env (fst (step CallCheckForChanges s))) = timers (env s)
  ∧ clock (env (fst (step CallCheckForChanges s))) = clock (env s)
  ∧ snd (step CallCheckForChanges (fst (step CallCheckForChanges s)))
    = snd (step CallCheckForChanges s)
  ∧ (∀ t, inst s = Ready t →
          snd (step CallCheckForChanges s) = [ReturnedBool (hasChanges t)]).
Proof.
  destruct s as [[|t] h]; [by split_and!; try done|].
  simpl. unfold callCheckForChanges, runReady. simpl.
  destruct (checkForChanges_effect {| this := t; host := h |}) as (Hr & Ht & Htm & Hc & _).
  destruct (checkForChanges {| this := t; host := h |}) as [b w1]. simpl in *.
  destruct (checkForChanges_effect {| this := this w1; host := host w1 |}) as (Hr' & _).
  destruct (checkForChanges {| this := this w1; host := host w1 |}) as [b' w2]. simpl in *.
  split_and!; try congruence.
Qed.

(** ** [checkForChanges] against [getChanges] *)

Lemma scanCurrent_true (t : FormWatcher) entries :
  scanCurrent t entries = true ↔
  ∃ id data, (id, data) ∈ entries ∧ entryChanged t id data = true.
Proof.
  induction entries as [|[id data] rest IH].
  - rewrite exists_entry_nil. done.
  - rewrite exists_entry_cons. simpl. unfold entryChanged at 1.
    destruct (JSMap.get (originalState t) id) as [od|].
    + destruct (snapshotDiffers od data); [naive_solver|]. rewrite IH. naive_solver.
    + destruct (JSMap.get (removedFields t) id) as [rd|]; [|naive_solver].
      destruct (snapshotDiffers rd data); [naive_solver|]. rewrite IH. naive_solver.
Qed.

Lemma scanOriginal_true (t : FormWatcher) ids :
  scanOriginal t ids = true ↔ ∃ id, id ∈ ids ∧ JSMap.has (currentState t) id = false.
Proof.
  induction ids as [|id rest IH]; simpl.
  - split; [done|]. by intros (? & ?%elem_of_nil & _).
  - destruct (JSMap.has (currentState t) id) eqn:E; simpl.
    + rewrite IH. split.
      * intros (id' & ? & ?). exists id'. split; [apply elem_of_cons; by right|done].
      * intros (id' & [->|?]%elem_of_cons & ?); [congruence|eauto].
    + split; [|done]. intros _. exists id. split; [apply elem_of_cons; by left|done].
Qed.

Lemma hasChanges_true (t : FormWatcher) :
  hasChanges t = true ↔
  (∃ id data, (id, data) ∈ currentState t ∧ entryChanged t id data = true)
  ∨ (∃ id, id ∈ JSMap.keys (originalState t) ∧ JSMap.has (currentState t) id = false).
Proof.
  unfold hasChanges. rewrite <- scanCurrent_true, <- scanOriginal_true.
  destruct (scanCurrent t (currentState t)); naive_solver.
Qed.

(** X6. [checkForChanges] answers [true] exactly when [getChanges] lists an
    added, a modified or a removed field, or a re-added field whose previous
    value or checked state differs from the current one. *)
Theorem hasChanges_iff_getChanges (t : FormWatcher) :
  hasChanges t = true ↔
  (∃ c, c ∈ added (getChanges t))
  ∨ (∃ m, m ∈ modified (getChanges t))
  ∨ (∃ c, c ∈ removed (getChanges t))
  ∨ (∃ r, r ∈ reAdded (getChanges t) ∧ reAddedDiffers r = true).
Proof.
  rewrite hasChanges_true. split.
  - intros [(id & data & Hin & Hch)|(id & Hid & Hnot)].
    + unfold entryChanged in Hch.
      destruct (JSMap.get (originalState t) id) as [od|] eqn:Eo.
      * right; left. exists (asModified id od data). apply getChanges_modified.
        exists id, data. split; [done|]. by exists od.
      * destruct (JSMap.get (removedFields t) id) as [rd|] eqn:Er.
        -- right; right; right. exists (asReAdded id data rd). split; [|done].
           apply getChanges_reAdded. exists id, data. split; [done|]. split; [done|].
           by exists rd.
        -- left. exists (asChange id data). apply getChanges_added.
           exists id, data. by split_and!.
    + right; right; left.
      unfold JSMap.keys in Hid. apply list_elem_of_fmap in Hid as ([id' od] & -> & Hin).
      exists (asChange id' od). apply getChanges_removed. exists id', od. by split_and!.
  - intros [(c & Hc)|[(m & Hm)|[(c & Hc)|(r & Hr & Hd)]]].
    + apply getChanges_added in Hc as (id & data & Hin & Ho & Hr & _).
      left. exists id, data. split; [done|]. unfold entryChanged. by rewrite Ho, Hr.
    + apply getChanges_modified in Hm as (id & data & Hin & od & Ho & Hd & _).
      left. exists id, data. split; [done|]. unfold entryChanged. by rewrite Ho.
    + apply getChanges_removed in Hc as (id & od & Hin & Hnot & _).
      right. exists id. split; [|done]. unfold JSMap.keys.
      change id with (fst (id, od)). by apply list_elem_of_fmap_2.
    + apply getChanges_reAdded in Hr as (id & data & Hin & Ho & rd & Hrd & ->).
      left. exists id, data. split; [done|]. unfold entryChanged. by rewrite Ho, Hrd.
Qed.

(** ** Live state equal to the baseline *)

Lemma no_differences (t : FormWatcher) :
  JSMap.wf (originalState t) →
  (∀ id data, (id, data) ∈ currentState t →
              ∃ od, (id, od) ∈ originalState t ∧ snapshotDiffers od data = false) →
  (∀ id, id ∈ JSMap.keys (originalState t) → JSMap.has (currentState t) id = true) →
  hasChanges t = false ∧ getChanges t = noChanges.
Proof.
  intros Hwf Hlive Hbase.
  assert (Hget : ∀ id data, (id, data) ∈ currentState t →
            ∃ od, JSMap.get (originalState t) id = Some od ∧ snapshotDiffers od data = false).
  { intros id data Hin. destruct (Hlive id data Hin) as (od & Hod & Hd).
    exists od. split; [by apply jsmap_elem_get|done]. }
  split.
  - unfold hasChanges. rewrite scanCurrent_false by done. by apply scanOriginal_false.
  - assert (Ha : added (getChanges t) = []).
    { apply elem_of_nil_inv. intros c (id & data & Hin & Ho & _)%getChanges_added.
      destruct (Hget id data Hin) as (od & ? & _). congruence. }
    assert (Hm : modified (getChanges t) = []).
    { apply elem_of_nil_inv.
      intros c (id & data & Hin & od & Ho & Hd & _)%getChanges_modified.
      destruct (Hget id data Hin) as (od' & ? & ?). congruence. }
    assert (Hr : reAdded (getChanges t) = []).
    { apply elem_of_nil_inv. intros c (id & data & Hin & Ho & _)%getChanges_reAdded.
      destruct (Hget id data Hin) as (od & ? & _). congruence. }
    assert (Hd : removed (getChanges t) = []).
    { apply elem_of_nil_inv. intros c (id & od & Hin & Hnot & _)%getChanges_removed.
      rewrite Hbase in Hnot; [done|]. unfold JSMap.keys.
      change id with (fst (id, od)). by apply list_elem_of_fmap_2. }
    destruct (getChanges t). simpl in *. unfold noChanges. congruence.
Qed.

Lemma reachable_run (inputs : list Input) (s : System) :
  reachable s → reachable (fst (run inputs s)).
Proof.
  revert s. induction inputs as [|i rest IH]; intros s H; [done|].
  destruct (run_cons i rest s) as [-> _]. apply IH. by apply reach_step.
Qed.

(** X7. In a system that exists, [getChanges()] right after [resetState()]
    reports nothing: the four lists are empty. *)
Theorem reset_then_getChanges (s : System) (t : FormWatcher) :
  reachable s → inst s = Ready t →
  snd (step CallGetChanges (fst (step CallResetState s))) = [ReturnedChanges noChanges].
Proof.
  intros Hreach Hinst. apply reachable_good in Hreach. unfold goodSystem in Hreach.
  rewrite Hinst in Hreach. destruct Hreach as [(Hwf & _ & _) _].
  simpl. unfold callResetState. rewrite Hinst. unfold runReady.
  destruct (resetState_effect {| this := t; host := env s |}) as (Ho & _ & Hc).
  destruct (resetState_copies_baseline {| this := t; host := env s |}) as (_ & _ & _ & Hall).
  destruct (resetState {| this := t; host := env s |}) as [[] w1]. simpl in *.
  unfold callGetChanges. simpl. f_equal. f_equal.
  apply no_differences.
  - by rewrite Ho.
  - intros id d Hin. destruct (Hall id d Hin) as (_ & data & Hdata & _ & Hv & Hch).
    exists data. rewrite Ho. split; [done|]. by apply snapshotDiffers_false.
  - intros id Hid. rewrite Hc. apply copyEntries_has. right. by rewrite <- Ho.
Qed.

Lemma reset_then_getChanges_witness :
  snd (step CallGetChanges (fst (step CallResetState readdedSame)))
  = [ReturnedChanges noChanges].
Proof.
  apply (reset_then_getChanges readdedSame (watcherOf readdedSame)).
  - exact (reachable_run _ _ (reachable_constructWith _ _ _ _ _)).
  - vm_compute. reflexivity.
Defined.

(** ** A new instance *)





Ltac unchanged :=
  repeat match goal with
    | |- preserves _ (ret _) => apply preserves_ret
    | |- preserves _ (gets _) => apply preserves_gets
    | |- preserves _ (forEach _ _) => apply preserves_forEach; intros ?
    | |- preserves _ (bind _ _) => apply preserves_bind; [|intros ?]
    | |- preserves _ (if ?b then _ else _) => destruct b
    | |- preserves _ (match ?x with _ => _ end) => destruct x
    | |- preserves _ _ => let w := fresh "w" in let H := fresh "H" in intros w H; exact H
    end.

Lemma initializeState_frame form (w : World) :
  removedFields (this (snd (initializeState form w))) = removedFields (this w)
  ∧ lastEvent (this (snd (initializeState form w))) = lastEvent (this w)
  ∧ timeoutId (this (snd (initializeState form w))) = timeoutId (this w)
  ∧ timers (host (snd (initializeState form w))) = timers (host w)
  ∧ calls (host (snd (initializeState form w))) = calls (host w)
  ∧ console (host (snd (initializeState form w))) = console (host w)
  ∧ listeners (host (snd (initializeState form w))) = listeners (host w)
  ∧ observing (host (snd (initializeState form w))) = observing (host w).
Proof.
  assert (H : preserves
           (fun w' => removedFields (this w') = removedFields (this w)
                      ∧ lastEvent (this w') = lastEvent (this w)
                      ∧ timeoutId (this w') = timeoutId (this w)
                      ∧ timers (host w') = timers (host w)
                      ∧ calls (host w') = calls (host w)
                      ∧ console (host w') = console (host w)
                      ∧ listeners (host w') = listeners (host w)
                      ∧ observing (host w') = observing (host w))
           (initializeState form)).
  { unfold initializeState, isExcludedM, getOrSetFieldID, formatFieldState. unchanged. }
  by apply H.
Qed.

Lemma constructor_unfold form (w : World) :
  snd ((initializeState form >> setupEventListeners >> setupMutationObserver) w)
  = {| this := this (snd (initializeState form w));
       host := setListeners (listeners (host (snd (initializeState form w)))
                               ++ ["change"; "input"]) true
                 (host (snd (initializeState form w))) |}.
Proof.
  unfold bind at 1. destruct (initializeState form w) as [[] w1]. reflexivity.
Qed.



(** ** Field identifiers *)

Lemma generated_id_nonempty (prefix uuid : string) : prefix +:+ "-" +:+ uuid ≠ "".
Proof. by destruct prefix. Qed.

Lemma strOr_nonempty (a b : string) : a ≠ "" → strOr a b = a.
Proof. intros H. unfold strOr. by apply String.eqb_neq in H as ->. Qed.

Lemma getOrSetFieldID_known (f : Element) (w : World) :
  getFieldId (host w) f ≠ "" → getOrSetFieldID f w = (getFieldId (host w) f, w).
Proof.
  intros H. unfold getOrSetFieldID. cbv [bind gets]. simpl.
  by apply String.eqb_neq in H as ->.
Qed.

(** X9. [getOrSetFieldID] always returns a non-empty id, and the id
    sticks: [getFieldId] reads it back from the element, a second call
    returns it again without drawing a UUID or writing anything, and the ids
    of other elements are what they were. An element that already resolves to
    an id keeps it and nothing is written. The instance is not touched. *)
Theorem getOrSetFieldID_sticks (f : Element) (w : World) :
  fst (getOrSetFieldID f w) ≠ ""
  ∧ getFieldId (host (snd (getOrSetFieldID f w))) f = fst (getOrSetFieldID f w)
  ∧ getOrSetFieldID f (snd (getOrSetFieldID f w))
    = (fst (getOrSetFieldID f w), snd (getOrSetFieldID f w))
  ∧ (∀ f', el_node f' ≠ el_node f →
           getFieldId (host (snd (getOrSetFieldID f w))) f' = getFieldId (host w) f')
  ∧ (getFieldId (host w) f ≠ "" → getOrSetFieldID f w = (getFieldId (host w) f, w))
  ∧ this (snd (getOrSetFieldID f w)) = this w.
Proof.
  destruct (String.eqb_spec (getFieldId (host w) f) "") as [Hempty|Hid].
  - assert (E : ∃ id, id ≠ "" ∧ getOrSetFieldID f w =
                (id, {| this := this w;
                        host := setDataset (<[el_node f := id]> (dataset (host w)))
                                  (setUuidNext (S (uuidNext (host w))) (host w)) |})).
    { unfold getOrSetFieldID. cbv [bind gets randomUUID setFormWatcherId onHost ret]. simpl.
      rewrite Hempty. simpl.
      destruct (negb (String.eqb (el_name f) "")); eexists; (split; [|reflexivity]);
        apply generated_id_nonempty. }
    destruct E as (id & Hne & E). rewrite E. simpl.
    assert (Hback : getFieldId
              (setDataset (<[el_node f := id]> (dataset (host w)))
                 (setUuidNext (S (uuidNext (host w))) (host w))) f = id).
    { unfold getFieldId. simpl. rewrite lookup_insert_eq. simpl.
      rewrite (strOr_nonempty id (el_id f)) by done. by apply strOr_nonempty. }
    split_and!; try done.
    + rewrite getOrSetFieldID_known; simpl; rewrite Hback; done.
    + intros f' Hf'. unfold getFieldId. simpl. by rewrite lookup_insert_ne.
  - rewrite getOrSetFieldID_known by done. simpl.
    split_and!; try done. by rewrite getOrSetFieldID_known.
Qed.

(** ** Recording a field *)

Lemma getOrSetFieldID_host (f : Element) (w : World) :
  this (snd (getOrSetFieldID f w)) = this w
  ∧ nextAddr (host (snd (getOrSetFieldID f w))) = nextAddr (host w)
  ∧ nextTimer (host (snd (getOrSetFieldID f w))) = nextTimer (host w)
  ∧ timers (host (snd (getOrSetFieldID f w))) = timers (host w)
  ∧ clock (host (snd (getOrSetFieldID f w))) = clock (host w).
Proof.
  unfold getOrSetFieldID. cbv [bind gets randomUUID setFormWatcherId onHost ret]. simpl.
  by destruct (String.eqb (getFieldId (host w) f) "").
Qed.

Lemma debounced_nextTimer (w : World) :
  nextTimer (host (snd (debouncedCheckForChanges w))) = S (nextTimer (host w)).
Proof.
  unfold debouncedCheckForChanges, bind, gets, clearTimeout. simpl.
  by destruct (timeoutId (this w)).
Qed.

Lemma updateCurrentState_unfold (f : Element) (w : World) :
  updateCurrentState f w =
  debouncedCheckForChanges
    {| this :=
         setCurrentState
           (JSMap.set (currentState (this (snd (getOrSetFieldID f w))))
              (fst (getOrSetFieldID f w))
              (fst (formatFieldState f (snd (getOrSetFieldID f w)))))
           (this (snd (getOrSetFieldID f w)));
       host := host (snd (formatFieldState f (snd (getOrSetFieldID f w)))) |}.
Proof.
  unfold updateCurrentState. unfold bind at 1.
  destruct (getOrSetFieldID f w) as [id w1]. simpl.
  unfold formatFieldState. cbv [bind newObject ret onThis]. simpl. reflexivity.
Qed.

(** X10. [updateCurrentState(field)] stores the snapshot of the field in
    [currentState] under the id [getOrSetFieldID] gives it, leaves every other
    entry of [currentState] and the whole of [originalState], [removedFields]
    and [lastEvent] as they are, and sets a timer. *)
Theorem updateCurrentState_records (f : Element) (w : World) :
  (∃ s, JSMap.get (currentState (this (snd (updateCurrentState f w))))
          (fst (getOrSetFieldID f w)) = Some s
        ∧ sameSnapshot s (fst (formatFieldState f w))
        ∧ field s = el_node f)
  ∧ (∀ id, id ≠ fst (getOrSetFieldID f w) →
           JSMap.get (currentState (this (snd (updateCurrentState f w)))) id
           = JSMap.get (currentState (this w)) id)
  ∧ originalState (this (snd (updateCurrentState f w))) = originalState (this w)
  ∧ removedFields (this (snd (updateCurrentState f w))) = removedFields (this w)
  ∧ lastEvent (this (snd (updateCurrentState f w))) = lastEvent (this w)
  ∧ nextTimer (host (snd (updateCurrentState f w))) = S (nextTimer (host w)).
Proof.
  rewrite updateCurrentState_unfold.
  destruct (getOrSetFieldID_host f w) as (Ht & _ & Hn & _ & _).
  match goal with |- context [debouncedCheckForChanges ?w1] =>
    destruct (debounced_maps w1) as (Ho & Hc & Hr & He & _);
    pose proof (debounced_nextTimer w1) as Hnext
  end.
  simpl in *. rewrite Ho, Hc, Hr, He, Hnext, Ht.
  split_and!; try done.
  - eexists. split; [apply jsmap_get_set_eq|]. by split_and!.
  - intros id Hid. by apply jsmap_get_set_ne.
  - f_equal. unfold formatFieldState. cbv [bind newObject ret]. simpl. exact Hn.
Qed.

(** ** One timer *)

Lemma step_timers_bound (i : Input) (s : System) :
  goodSystem s → length (timers (env s)) ≤ 1 →
  length (timers (env (fst (step i s)))) ≤ 1.
Proof.
  intros Hgood Hlen. destruct (inst s) as [|t] eqn:Hinst.
  { destruct s as [i0 h]. simpl in Hinst. subst i0. destruct i; done. }
  unfold goodSystem in Hgood. rewrite Hinst in Hgood. destruct Hgood as [_ Hone].
  assert (Hd : (∃ ms, i = Elapse ms) ∨ ∀ ms, i ≠ Elapse ms)
    by (destruct i; eauto; right; done).
  destruct Hd as [[ms ->]|Hi].
  - destruct (step_elapse s t ms Hinst) as (_ & _ & _ & -> & _).
    etrans; [apply length_filter|done].
  - destruct (step_scheduled i s t Hinst Hone Hi) as (t1 & _ & Hs).
    destruct Hs as (_ & _ & _ & Hle & Hsame & Hset). simpl in *.
    destruct (decide (nextTimer (env (fst (step i s))) = nextTimer (env s))) as [E|E].
    + by rewrite Hsame.
    + destruct Hset as [id ->]; [lia|done].
Qed.

(** X11. In a system that exists at most one timer is pending at any time:
    however many triggers came, a single recomputation is scheduled. *)
Theorem at_most_one_timer (s : System) :
  reachable s → length (timers (env s)) ≤ 1.
Proof.
  intros Hreach. induction Hreach as [ds uuids doc target options s Hc|s i Hreach IH].
  - apply construct_returned in Hc as (form' & _ & ->).
    unfold constructWith. destruct form' as [form|]; simpl; [|lia].
    rewrite constructor_unfold. simpl.
    match goal with |- context [initializeState form ?w0] =>
      destruct (initializeState_frame form w0) as (_ & _ & _ & -> & _) end.
    simpl. lia.
  - apply step_timers_bound; [by apply reachable_good|done].
Qed.

Lemma at_most_one_timer_witness :
  length (timers (env (fst (run (commit "a" :: play fiveCommits) watchedX)))) ≤ 1.
Proof.
  apply (at_most_one_timer (fst (run (commit "a" :: play fiveCommits) watchedX))).
  exact (reachable_run _ _ (reachable_constructWith _ _ _ _ _)).
Defined.

(** ** A baseline field that leaves the form *)

(** X12. When the observer handles the removal of a field that is not
    excluded, whose id is not empty and is both in [currentState] and in
    [originalState], the field is reported from then on: [getChanges] lists
    it in [removed] with its baseline value, [checkForChanges] would answer
    [true], the id has left [currentState], and [removedFields] holds the
    snapshot that was live. *)
Theorem removed_baseline_field_reported (f : Element) (w : World)
    (data od : FieldState) :
  JSMap.wf (currentState (this w)) →
  isExcluded (this w) (host w) f = false →
  getFieldId (host w) f ≠ "" →
  JSMap.get (currentState (this w)) (getFieldId (host w) f) = Some data →
  JSMap.get (originalState (this w)) (getFieldId (host w) f) = Some od →
  asChange (getFieldId (host w) f) od
    ∈ removed (getChanges (this (snd (onRemovedField f w))))
  ∧ hasChanges (this (snd (onRemovedField f w))) = true
  ∧ JSMap.has (currentState (this (snd (onRemovedField f w)))) (getFieldId (host w) f) = false
  ∧ JSMap.get (removedFields (this (snd (onRemovedField f w)))) (getFieldId (host w) f)
    = Some data.
Proof.
  intros Hwf Hex Hid Hlive Hbase.
  destruct (onRemovedField_moved f w data Hex Hid Hlive) as (Hr & Hc & Ho).
  assert (Hgone : JSMap.has (currentState (this (snd (onRemovedField f w))))
                    (getFieldId (host w) f) = false).
  { rewrite Hc. apply jsmap_has_false. by apply jsmap_get_delete_eq. }
  assert (Hin : (getFieldId (host w) f, od)
                  ∈ originalState (this (snd (onRemovedField f w)))).
  { rewrite Ho. by apply jsmap_get_elem. }
  split_and!.
  - apply getChanges_removed. exists (getFieldId (host w) f), od. by split_and!.
  - apply hasChanges_true. right. exists (getFieldId (host w) f). split; [|done].
    unfold JSMap.keys. change (getFieldId (host w) f) with (fst (getFieldId (host w) f, od)).
    by apply list_elem_of_fmap_2.
  - done.
  - rewrite Hr. apply jsmap_get_set_eq.
Qed.

Lemma removed_baseline_field_reported_witness :
  asChange "x" {| addr := 0; field := 1; value := Str "A"; checked := None |}
    ∈ removed (getChanges (this (snd (onRemovedField (textInput 1 "x" "A")
                                       {| this := watcherOf watchedX;
                                          host := env watchedX |}))))
  ∧ hasChanges (this (snd (onRemovedField (textInput 1 "x" "A")
                             {| this := watcherOf watchedX; host := env watchedX |}))) = true
  ∧ JSMap.has (currentState (this (snd (onRemovedField (textInput 1 "x" "A")
                                         {| this := watcherOf watchedX;
                                            host := env watchedX |})))) "x" = false
  ∧ JSMap.get (removedFields (this (snd (onRemovedField (textInput 1 "x" "A")
                                           {| this := watcherOf watchedX;
                                              host := env watchedX |})))) "x"
    = Some {| addr := 1; field := 1; value := Str "A"; checked := None |}.
Proof.
  apply (removed_baseline_field_reported (textInput 1 "x" "A")
           {| this := watcherOf watchedX; host := env watchedX |}
           {| addr := 1; field := 1; value := Str "A"; checked := None |}
           {| addr := 0; field := 1; value := Str "A"; checked := None |}).
  - vm_compute. apply NoDup_cons. split; [by intros ?%elem_of_nil|apply NoDup_nil_2].
  - vm_compute. reflexivity.
  - vm_compute. discriminate.
  - vm_compute. reflexivity.
  - vm_compute. reflexivity.
Defined.

(** ** Radio groups *)















(** ** Excluded fields *)




Section Exclusion.
Variables (n : nat) (selectors : list string).



Lemma untracked_set_original t id d :
  untracked n t → field d ≠ n →
  untracked n (setOriginalState (JSMap.set (originalState t) id d) t).
Proof.
  intros H Hd id' d' [Hin|[Hin|Hin]]; simpl in Hin.
  - apply jsmap_set_elem in Hin as [Hin|[_ ->]]; [|done]. apply (H id' d'). auto.
  - apply (H id' d'). auto.
  - apply (H id' d'). auto.
Qed.














End Exclusion.




(** ** The baseline of a new instance *)


















(** ** The order of the lists of [getChanges] *)

Section Order.
Variable t : FormWatcher.

Ltac order_step IH :=
  simpl; rewrite IH, filter_cons; unfold JSMap.has; simpl;
  repeat case_match; simpl;
  rewrite ?fmap_app, <- ?app_assoc; simpl; try done;
  repeat match goal with
    | H : _ ∧ _ |- _ => destruct H
    | H : ¬ (_ ∧ _) |- _ => exfalso; apply H; by split
    end; try done.

Lemma classify_added_ids entries changes :
  ch_id <$> added (classify t entries changes)
  = (ch_id <$> added changes)
    ++ filter (fun id => JSMap.has (originalState t) id = false
                         ∧ JSMap.has (removedFields t) id = false) (JSMap.keys entries).
Proof.
  revert changes. induction entries as [|[id data] rest IH]; intros changes.
  - simpl. by rewrite filter_nil, app_nil_r.
  - order_step IH.
Qed.

Lemma classify_reAdded_ids entries changes :
  re_id <$> reAdded (classify t entries changes)
  = (re_id <$> reAdded changes)
    ++ filter (fun id => JSMap.has (originalState t) id = false
                         ∧ JSMap.has (removedFields t) id = true) (JSMap.keys entries).
Proof.
  revert changes. induction entries as [|[id data] rest IH]; intros changes.
  - simpl. by rewrite filter_nil, app_nil_r.
  - order_step IH.
Qed.

Lemma classify_modified_ids entries changes :
  ∃ ids, mod_id <$> modified (classify t entries changes)
         = (mod_id <$> modified changes) ++ ids
         ∧ sublist ids (filter (fun id => JSMap.has (originalState t) id = true)
                          (JSMap.keys entries)).
Proof.
  revert changes. induction entries as [|[id data] rest IH]; intros changes.
  - exists []. simpl. by rewrite app_nil_r.
  - simpl. rewrite filter_cons.
    destruct (JSMap.get (originalState t) id) as [od|] eqn:Eo.
    + assert (Hh : JSMap.has (originalState t) id = true) by (unfold JSMap.has; by rewrite Eo).
      destruct (decide (JSMap.has (originalState t) id = true)); [|done].
      destruct (snapshotDiffers od data).
      * match goal with |- context [classify t rest ?c] =>
          destruct (IH c) as (ids & -> & Hsub) end.
        exists (id :: ids). simpl. rewrite fmap_app, <- app_assoc. split; [done|].
        by apply sublist_skip.
      * destruct (IH changes) as (ids & -> & Hsub). exists ids. split; [done|].
        by apply sublist_cons.
    + assert (Hh : JSMap.has (originalState t) id = false) by (unfold JSMap.has; by rewrite Eo).
      destruct (decide (JSMap.has (originalState t) id = true)); [congruence|].
      match goal with |- context [classify t rest ?c] =>
        destruct (IH c) as (ids & Hids & Hsub) end.
      exists ids. split; [|done].
      rewrite Hids. by destruct (JSMap.get (removedFields t) id).
Qed.

Lemma collectRemoved_ids entries changes :
  ch_id <$> removed (collectRemoved t entries changes)
  = (ch_id <$> removed changes)
    ++ filter (fun id => JSMap.has (currentState t) id = false) (JSMap.keys entries).
Proof.
  revert changes. induction entries as [|[id data] rest IH]; intros changes.
  - simpl. by rewrite filter_nil, app_nil_r.
  - simpl. rewrite IH, filter_cons.
    destruct (decide (JSMap.has (currentState t) id = false)) as [E|E].
    + rewrite E. simpl. by rewrite fmap_app, <- app_assoc.
    + apply not_false_iff_true in E. by rewrite E.
Qed.

End Order.

(** X16. The lists of [getChanges] follow the insertion order of the maps
    they are read from: the ids of [removed] are the keys of [originalState]
    that [currentState] lacks, in baseline order; the ids of [added] and of
    [reAdded] are the keys of [currentState] that [originalState] lacks and
    that [removedFields] lacks, respectively holds, in live order; the ids of
    [modified] are a sub-sequence of the live keys that are in the baseline. *)
Theorem getChanges_in_map_order (t : FormWatcher) :
  ch_id <$> removed (getChanges t)
  = filter (fun id => JSMap.has (currentState t) id = false) (JSMap.keys (originalState t))
  ∧ ch_id <$> added (getChanges t)
    = filter (fun id => JSMap.has (originalState t) id = false
                        ∧ JSMap.has (removedFields t) id = false)
        (JSMap.keys (currentState t))
  ∧ re_id <$> reAdded (getChanges t)
    = filter (fun id => JSMap.has (originalState t) id = false
                        ∧ JSMap.has (removedFields t) id = true)
        (JSMap.keys (currentState t))
  ∧ sublist (mod_id <$> modified (getChanges t))
      (filter (fun id => JSMap.has (originalState t) id = true)
         (JSMap.keys (currentState t))).
Proof.
  unfold getChanges.
  match goal with |- context [collectRemoved t ?es ?c] =>
    destruct (collectRemoved_others t es c) as (-> & -> & ->) end.
  rewrite collectRemoved_ids, classify_removed, classify_added_ids, classify_reAdded_ids.
  split_and!; try done.
  destruct (classify_modified_ids t (currentState t)
              {| added := []; removed := []; modified := []; reAdded := [] |})
    as (ids & -> & Hsub).
  done.
Qed.
